(** * The GC safepoint manager of TiCDC (package [gc])

    A shallow embedding of [gcManager] and its three operations,
    [TryUpdateGCSafePoint], [CheckStaleCheckpointTs] and
    [IgnoreFailedChangeFeed], followed by the properties the design
    document states about them.

    The manager is a Go struct mutated through a pointer receiver and it
    talks to three collaborators: the process clock ([time.Now]), the PD
    client (through [SetServiceGCSafepoint]) and the PD clock
    ([pdClock.CurrentTime]).  The embedding threads one state, [Sys], made
    of the manager and of the world around it, through ExtLib's state
    monad, so every operation reads as its Go body does. *)

From Stdlib Require Import ZArith List String Bool Lia.
From ExtLib Require Import Structures.Monad Structures.MonadState.
From ExtLib Require Import Data.Monads.StateMonad.
Import ListNotations.
Import MonadNotation.

Local Open Scope Z_scope.
Local Open Scope monad_scope.

(** ** Go's fixed-width integers

    [uint64] and [int64] values are integers of [Z]; every operation the
    manager uses on them has its wrap-around written out. *)

Module Go.

Definition is_uint64 (z : Z) : Prop := 0 <= z < 2 ^ 64.

(** The value an unbounded result takes once stored in a [uint64]. *)
Definition uint64_wrap (z : Z) : Z := z mod 2 ^ 64.

(** [a - b] on [uint64]. *)
Definition uint64_sub (a b : Z) : Z := uint64_wrap (a - b).

(** [a >> n] on [uint64]. *)
Definition uint64_shr (a n : Z) : Z := Z.shiftr a n.

Definition int64_min : Z := - 2 ^ 63.
Definition int64_max : Z := 2 ^ 63 - 1.

Definition is_int64 (z : Z) : Prop := - 2 ^ 63 <= z <= 2 ^ 63 - 1.

(** The value an unbounded result takes once stored in an [int64]. *)
Definition int64_wrap (z : Z) : Z := (z + 2 ^ 63) mod 2 ^ 64 - 2 ^ 63.

(** [a * b] on [int64]. *)
Definition int64_mul (a b : Z) : Z := int64_wrap (a * b).

(** The conversion [int64(u)] of a [uint64]. *)
Definition int64_of_uint64 (u : Z) : Z := int64_wrap u.

End Go.

(** ** Package [time]

    A [Duration] is an [int64] count of nanoseconds.  A [Time] is an
    instant, counted here in nanoseconds from the Unix epoch on a single
    time line; the range of instants is not bounded.  [Sub] is the one
    place where Go leaves exact arithmetic: the difference of two instants
    saturates at the least and greatest [Duration]. *)

Module time.

Definition Duration : Type := Z.
Definition Time : Type := Z.

Definition Nanosecond : Duration := 1.
Definition Microsecond : Duration := 1000 * Nanosecond.
Definition Millisecond : Duration := 1000 * Microsecond.
Definition Second : Duration := 1000 * Millisecond.
Definition Minute : Duration := 60 * Second.
Definition Hour : Duration := 60 * Minute.

Definition minDuration : Duration := Go.int64_min.
Definition maxDuration : Duration := Go.int64_max.

(** The zero value [time.Time{}]: January 1, year 1, 00:00 UTC, which is
    62135596800 seconds before the Unix epoch. *)
Definition zero : Time := - 62135596800 * Second.

(** [time.Unix(sec, nsec)]. *)
Definition Unix (sec nsec : Z) : Time := sec * Second + nsec.

(** [t.Sub(u)]: the duration [t - u], or the least or greatest duration
    when [t - u] does not fit one. *)
Definition Sub (t u : Time) : Duration :=
  let d := t - u in
  if d <? minDuration then minDuration
  else if maxDuration <? d then maxDuration
  else d.

End time.

(** ** Errors and contexts *)

(** Go's [error] values met by the manager; a [nil] error is [None] of
    [option error]. *)
Inductive error : Type :=
| context_Canceled
| context_DeadlineExceeded
| ErrPD (msg : string)
| ErrUpdateServiceSafepointFailed_Wrap (cause : error)
| ErrSnapshotLostByGC (checkpointTs : Z) (lastSafePointTs : Z).

(** The caller's [context.Context], as what becomes of it while the call
    it is passed to is in flight: it stays live, is cancelled, or runs
    past its deadline. *)
Inductive Context : Type :=
| ctx_live
| ctx_cancelled
| ctx_expired.

(** [ctx.Err()]. *)
Definition ctx_Err (ctx : Context) : option error :=
  match ctx with
  | ctx_live => None
  | ctx_cancelled => Some context_Canceled
  | ctx_expired => Some context_DeadlineExceeded
  end.

(** [model.ChangeFeedID], declared in package [model]; the manager only
    passes it along for diagnostics. *)
Record ChangeFeedID : Type := mkChangeFeedID {
  Namespace : string;
  ID : string
}.

(** ** The manager and the world around it *)

Module gcManager.

(** The struct [gcManager].  Its fields [pdClient] and [pdClock] are
    handles on collaborators, which live in the [World] below. *)
Record t : Type := mk {
  gcServiceID : string;
  gcTTL : Z;                      (* int64, seconds *)
  lastUpdatedTime : time.Time;
  lastSucceededTime : time.Time;
  lastSafePointTs : Z             (* uint64 *)
}.

Definition set_lastUpdatedTime (v : time.Time) (m : t) : t :=
  mk (gcServiceID m) (gcTTL m) v (lastSucceededTime m) (lastSafePointTs m).

Definition set_lastSucceededTime (v : time.Time) (m : t) : t :=
  mk (gcServiceID m) (gcTTL m) (lastUpdatedTime m) v (lastSafePointTs m).

Definition set_lastSafePointTs (v : Z) (m : t) : t :=
  mk (gcServiceID m) (gcTTL m) (lastUpdatedTime m) (lastSucceededTime m) v.

Definition set_gcTTL (v : Z) (m : t) : t :=
  mk (gcServiceID m) v (lastUpdatedTime m) (lastSucceededTime m)
     (lastSafePointTs m).

End gcManager.

(** One request received by the upstream safepoint service. *)
Record PushCall : Type := mkPushCall {
  push_serviceID : string;
  push_TTL : Z;
  push_safePoint : Z
}.

Inductive LogLevel : Type := Info | Warn.

Record LogEntry : Type := mkLog {
  log_level : LogLevel;
  log_msg : string
}.

(** Everything outside the manager that its operations read or write.

    - [clock k] is what the [k]-th reading of the process clock returns,
      and [reads] counts the readings made so far; nothing is assumed of
      the readings (a clock may stall or be set back);
    - [upstream k call] is what the upstream safepoint service answers to
      [call] when it is the [k]-th request, and [pushes] lists the requests
      made so far, oldest first;
    - [pdClock k] is the [k]-th answer of the PD clock, [pdReads] counts
      the answers given;
    - [logs] is the log, oldest entry first;
    - [gcSafepointUpdateInterval] is the package-level variable of that
      name and [serverConfig_GcTTL] the [GcTTL] field of the global server
      configuration. *)
Record World : Type := mkWorld {
  clock : nat -> time.Time;
  reads : nat;
  upstream : nat -> PushCall -> Z * option error;
  pushes : list PushCall;
  pdClock : nat -> time.Time * option error;
  pdReads : nat;
  logs : list LogEntry;
  gcSafepointUpdateInterval : time.Duration;
  serverConfig_GcTTL : Z
}.

Definition set_reads (v : nat) (w : World) : World :=
  mkWorld (clock w) v (upstream w) (pushes w) (pdClock w) (pdReads w)
          (logs w) (gcSafepointUpdateInterval w) (serverConfig_GcTTL w).

Definition set_pushes (v : list PushCall) (w : World) : World :=
  mkWorld (clock w) (reads w) (upstream w) v (pdClock w) (pdReads w)
          (logs w) (gcSafepointUpdateInterval w) (serverConfig_GcTTL w).

Definition set_pdReads (v : nat) (w : World) : World :=
  mkWorld (clock w) (reads w) (upstream w) (pushes w) (pdClock w) v
          (logs w) (gcSafepointUpdateInterval w) (serverConfig_GcTTL w).

Definition set_logs (v : list LogEntry) (w : World) : World :=
  mkWorld (clock w) (reads w) (upstream w) (pushes w) (pdClock w) (pdReads w)
          v (gcSafepointUpdateInterval w) (serverConfig_GcTTL w).

Record Sys : Type := mkSys {
  mgr : gcManager.t;
  env : World
}.

Definition M : Type -> Type := state Sys.

Definition run {A : Type} (c : M A) (s : Sys) : A * Sys := runState c s.

(** The value a computation returns, and the state it leaves. *)
Definition result {A : Type} (c : M A) (s : Sys) : A := fst (run c s).
Definition after {A : Type} (c : M A) (s : Sys) : Sys := snd (run c s).

(** *** Primitives *)

Definition getMgr : M gcManager.t := s <- get ;; ret (mgr s).

Definition getEnv : M World := s <- get ;; ret (env s).

(** Reading a field of the manager, or a variable of the world. *)
Definition readMgr {A : Type} (f : gcManager.t -> A) : M A :=
  m <- getMgr ;; ret (f m).

Definition readEnv {A : Type} (f : World -> A) : M A :=
  w <- getEnv ;; ret (f w).

Definition modifyMgr (f : gcManager.t -> gcManager.t) : M unit :=
  s <- get ;; put (mkSys (f (mgr s)) (env s)).

Definition modifyEnv (f : World -> World) : M unit :=
  s <- get ;; put (mkSys (mgr s) (f (env s))).

(** [time.Now()]: one reading of the process clock. *)
Definition time_Now : M time.Time :=
  w <- getEnv ;;
  modifyEnv (set_reads (S (reads w))) ;;
  ret (clock w (reads w)).

(** [time.Since(t)], that is [time.Now().Sub(t)]. *)
Definition time_Since (t : time.Time) : M time.Duration :=
  now <- time_Now ;;
  ret (time.Sub now t).

Definition log_Info (msg : string) : M unit :=
  modifyEnv (fun w => set_logs (logs w ++ [mkLog Info msg]) w).

Definition log_Warn (msg : string) : M unit :=
  modifyEnv (fun w => set_logs (logs w ++ [mkLog Warn msg]) w).

(** What the push of [call] under [ctx] comes back with in world [w]. *)
Definition push_reply (ctx : Context) (w : World) (call : PushCall)
  : Z * option error :=
  match ctx_Err ctx with
  | Some e => (0, Some e)
  | None => upstream w (List.length (pushes w)) call
  end.

(** Modelled from the spec: [SetServiceGCSafepoint], the helper of this
    package through which the manager reaches the upstream safepoint
    service, is declared in another file.  It sends
    [(serviceID, ttlSeconds, safepoint)] and returns the effective
    safepoint or an error; when the caller's context is cancelled or
    expires the call is aborted and the error is that of the context.
    Every invocation is recorded in [pushes]. *)
Definition SetServiceGCSafepoint (ctx : Context) (serviceID : string)
    (TTL : Z) (safePoint : Z) : M (Z * option error) :=
  w <- getEnv ;;
  let call := mkPushCall serviceID TTL safePoint in
  modifyEnv (set_pushes (pushes w ++ [call])) ;;
  ret (push_reply ctx w call).

(** [m.pdClock.CurrentTime()]. *)
Definition pdClock_CurrentTime : M (time.Time * option error) :=
  w <- getEnv ;;
  modifyEnv (set_pdReads (S (pdReads w))) ;;
  ret (pdClock w (pdReads w)).

(** Modelled from the spec: the timestamp encoding of package [oracle]
    (tikv/client-go), which is not part of this repository.  A 64-bit
    timestamp holds wall-clock milliseconds in its high-order bits above
    a logical counter of [physicalShiftBits] bits. *)
Module oracle.

Definition physicalShiftBits : Z := 18.

(** [ExtractPhysical(ts)]: [int64(ts >> physicalShiftBits)]. *)
Definition ExtractPhysical (ts : Z) : Z :=
  Go.int64_of_uint64 (Go.uint64_shr ts physicalShiftBits).

(** [GetTimeFromTS(ts)]: [time.Unix(ms/1e3, (ms%1e3)*1e6)]. *)
Definition GetTimeFromTS (ts : Z) : time.Time :=
  let ms := ExtractPhysical ts in
  time.Unix (Z.quot ms 1000) (Z.rem ms 1000 * 1000000).

End oracle.

(** ** Package-level declarations *)

(** [gcTTL]: how long the data of a failed changefeed is retained. *)
Definition gcTTL : time.Duration := 24 * time.Hour.

(** The initial value of the variable [gcSafepointUpdateInterval]. *)
Definition gcSafepointUpdateInterval_default : time.Duration :=
  1 * time.Minute.

(** [NewManager].  The [failpoint.Inject] markers of the source do nothing
    in a build that was not rewritten for fault injection, and are left
    out here and below. *)
Definition NewManager (gcServiceID : string) : M unit :=
  GcTTL <- readEnv serverConfig_GcTTL ;;
  now <- time_Now ;;
  modifyMgr (fun _ => gcManager.mk gcServiceID GcTTL time.zero now 0).

(** [TryUpdateGCSafePoint]. *)
Definition TryUpdateGCSafePoint (ctx : Context) (checkpointTs : Z)
    (forceUpdate : bool) : M (option error) :=
  lastUpdatedTime <- readMgr gcManager.lastUpdatedTime ;;
  since <- time_Since lastUpdatedTime ;;
  interval <- readEnv gcSafepointUpdateInterval ;;
  if (since <? interval) && negb forceUpdate then
    ret None
  else
    now <- time_Now ;;
    modifyMgr (gcManager.set_lastUpdatedTime now) ;;
    gcServiceID <- readMgr gcManager.gcServiceID ;;
    gcTTL <- readMgr gcManager.gcTTL ;;
    r <- SetServiceGCSafepoint ctx gcServiceID gcTTL checkpointTs ;;
    let actual := fst r in
    match snd r with
    | Some err =>
        log_Warn "updateGCSafePoint failed" ;;
        lastSucceededTime <- readMgr gcManager.lastSucceededTime ;;
        since <- time_Since lastSucceededTime ;;
        gcTTL <- readMgr gcManager.gcTTL ;;
        if since >=? Go.int64_mul time.Second gcTTL then
          ret (Some (ErrUpdateServiceSafepointFailed_Wrap err))
        else
          ret None
    | None =>
        (if actual =? checkpointTs then
           log_Info "update gc safe point success"
         else ret tt) ;;
        (if actual >? checkpointTs then
           log_Warn "update gc safe point failed, the gc safe point is larger than checkpointTs"
         else ret tt) ;;
        modifyMgr (gcManager.set_lastSafePointTs actual) ;;
        now <- time_Now ;;
        modifyMgr (gcManager.set_lastSucceededTime now) ;;
        ret None
    end.

(** [CheckStaleCheckpointTs]. *)
Definition CheckStaleCheckpointTs (ctx : Context) (changefeedID : ChangeFeedID)
    (checkpointTs : Z) : M (option error) :=
  let gcSafepointUpperBound := Go.uint64_sub checkpointTs 1 in
  lastSafePointTs <- readMgr gcManager.lastSafePointTs ;;
  if gcSafepointUpperBound <? lastSafePointTs then
    ret (Some (ErrSnapshotLostByGC checkpointTs lastSafePointTs))
  else
    ret None.

(** [IgnoreFailedChangeFeed]. *)
Definition IgnoreFailedChangeFeed (checkpointTs : Z) : M bool :=
  r <- pdClock_CurrentTime ;;
  let pdTime := fst r in
  match snd r with
  | Some err =>
      log_Warn "failed to get ts" ;;
      ret false
  | None =>
      let gcSafepointUpperBound := Go.uint64_sub checkpointTs 1 in
      ret (time.Sub pdTime (oracle.GetTimeFromTS gcSafepointUpperBound)
           >? gcTTL)
  end.

(** The owner's loop, as far as the manager sees it: one non-forced call
    of [TryUpdateGCSafePoint] per tick, with the checkpoint computed for
    that tick. *)
Fixpoint owner_ticks (ctx : Context) (checkpoints : list Z)
  : M (list (option error)) :=
  match checkpoints with
  | [] => ret []
  | cp :: rest =>
      r <- TryUpdateGCSafePoint ctx cp false ;;
      rs <- owner_ticks ctx rest ;;
      ret (r :: rs)
  end.

(** ** Observations on a state

    The vocabulary of the statements below: what a call started in state
    [s] is about to see. *)

(** The [k]-th clock reading from now on ([reading s 0] is the next). *)
Definition reading (s : Sys) (k : nat) : time.Time :=
  clock (env s) (k + reads (env s))%nat.

(** The request a push of [checkpointTs] sends, and what comes back. *)
Definition request (s : Sys) (checkpointTs : Z) : PushCall :=
  mkPushCall (gcManager.gcServiceID (mgr s)) (gcManager.gcTTL (mgr s))
             checkpointTs.

Definition reply (ctx : Context) (s : Sys) (checkpointTs : Z)
  : Z * option error :=
  push_reply ctx (env s) (request s checkpointTs).

(** The test at the head of [TryUpdateGCSafePoint], on the next clock
    reading: the call is a rate-limited skip. *)
Definition rate_limited (s : Sys) (forceUpdate : bool) : bool :=
  (time.Sub (reading s 0) (gcManager.lastUpdatedTime (mgr s))
   <? gcSafepointUpdateInterval (env s)) && negb forceUpdate.

(** [time.Second * time.Duration(m.gcTTL)]. *)
Definition ttl_duration (s : Sys) : time.Duration :=
  Go.int64_mul time.Second (gcManager.gcTTL (mgr s)).

(** The test made after a failed push, which reads the clock for the
    third time in the call: the grace window is over. *)
Definition grace_exceeded (s : Sys) : bool :=
  time.Sub (reading s 2) (gcManager.lastSucceededTime (mgr s))
  >=? ttl_duration s.

(** The state left by a skipped call: one clock reading was consumed. *)
Definition skipped (s : Sys) : Sys :=
  mkSys (mgr s) (set_reads (1 + reads (env s)) (env s)).

Definition log_of_failure : list LogEntry :=
  [mkLog Warn "updateGCSafePoint failed"].

(** The state left by a call whose push failed. *)
Definition push_failed (s : Sys) (checkpointTs : Z) : Sys :=
  mkSys
    (gcManager.set_lastUpdatedTime (reading s 1) (mgr s))
    (set_reads (3 + reads (env s))
       (set_logs (logs (env s) ++ log_of_failure)
          (set_pushes (pushes (env s) ++ [request s checkpointTs]) (env s)))).

Definition log_of_success (actual checkpointTs : Z) : list LogEntry :=
  (if actual =? checkpointTs
   then [mkLog Info "update gc safe point success"] else [])
  ++
  (if actual >? checkpointTs
   then [mkLog Warn "update gc safe point failed, the gc safe point is larger than checkpointTs"]
   else []).

(** The state left by a call whose push succeeded with [actual]. *)
Definition push_succeeded (s : Sys) (checkpointTs actual : Z) : Sys :=
  mkSys
    (gcManager.set_lastSucceededTime (reading s 2)
       (gcManager.set_lastSafePointTs actual
          (gcManager.set_lastUpdatedTime (reading s 1) (mgr s))))
    (set_reads (3 + reads (env s))
       (set_logs (logs (env s) ++ log_of_success actual checkpointTs)
          (set_pushes (pushes (env s) ++ [request s checkpointTs]) (env s)))).

(** The state after [n] skipped calls in a row. *)
Definition advance (n : nat) (s : Sys) : Sys :=
  mkSys (mgr s) (set_reads (n + reads (env s)) (env s)).

(** An error that tells the caller its own context ended the call. *)
Definition is_cancellation_error (r : option error) : bool :=
  match r with
  | Some context_Canceled => true
  | Some context_DeadlineExceeded => true
  | _ => false
  end.

(** ** Callers

    The manager is driven from outside: the owner calls any of the three
    operations of the [Manager] interface, in any order. *)

(** One call on the [Manager] interface, with its arguments. *)
Inductive Call : Type :=
| Call_TryUpdateGCSafePoint
    (ctx : Context) (checkpointTs : Z) (forceUpdate : bool)
| Call_CheckStaleCheckpointTs
    (ctx : Context) (changefeedID : ChangeFeedID) (checkpointTs : Z)
| Call_IgnoreFailedChangeFeed (checkpointTs : Z).

(** Making the call and dropping what it returns. *)
Definition perform (c : Call) : M unit :=
  match c with
  | Call_TryUpdateGCSafePoint ctx cp force =>
      _ <- TryUpdateGCSafePoint ctx cp force ;; ret tt
  | Call_CheckStaleCheckpointTs ctx id cp =>
      _ <- CheckStaleCheckpointTs ctx id cp ;; ret tt
  | Call_IgnoreFailedChangeFeed cp =>
      _ <- IgnoreFailedChangeFeed cp ;; ret tt
  end.

Fixpoint perform_all (cs : list Call) : M unit :=
  match cs with
  | [] => ret tt
  | c :: rest => perform c ;; perform_all rest
  end.

(** No call of the run [cs], started in state [s], is a
    [TryUpdateGCSafePoint] whose push succeeds: each one is skipped, or its
    push comes back with an error. *)
Fixpoint no_push_succeeded (cs : list Call) (s : Sys) : bool :=
  match cs with
  | [] => true
  | c :: rest =>
      match c with
      | Call_TryUpdateGCSafePoint ctx cp force =>
          rate_limited s force
          || match snd (reply ctx s cp) with Some _ => true | None => false end
      | _ => true
      end
      && no_push_succeeded rest (snd (run (perform c) s))
  end.

(** The process clock never reads an earlier instant than it did before. *)
Definition clock_monotone (w : World) : Prop :=
  forall i j : nat, (i <= j)%nat -> clock w i <= clock w j.

(** The instants the manager has stored are not after the next reading of
    the clock. *)
Definition times_in_past (s : Sys) : Prop :=
  gcManager.lastUpdatedTime (mgr s) <= reading s 0
  /\ gcManager.lastSucceededTime (mgr s) <= reading s 0.

(** How many requests were sent between state [s] and state [s']. *)
Definition pushes_sent (s s' : Sys) : Z :=
  Z.of_nat (List.length (pushes (env s')))
  - Z.of_nat (List.length (pushes (env s))).

(** The upstream service answers every request with an error. *)
Definition upstream_always_fails (w : World) : Prop :=
  forall (k : nat) (c : PushCall), snd (upstream w k c) <> None.

(** What a run of calls may change between [s] and [s']: the clock, the
    upstream, the interval and the identity and TTL of the manager stay,
    clock readings are only consumed, and requests are only added, each
    under the manager's identity and TTL. *)
Definition evolves (s s' : Sys) : Prop :=
  clock (env s') = clock (env s)
  /\ upstream (env s') = upstream (env s)
  /\ gcSafepointUpdateInterval (env s') = gcSafepointUpdateInterval (env s)
  /\ gcManager.gcServiceID (mgr s') = gcManager.gcServiceID (mgr s)
  /\ gcManager.gcTTL (mgr s') = gcManager.gcTTL (mgr s)
  /\ (reads (env s) <= reads (env s'))%nat
  /\ exists new : list PushCall,
       pushes (env s') = pushes (env s) ++ new
       /\ Forall (fun c => push_serviceID c = gcManager.gcServiceID (mgr s)
                           /\ push_TTL c = gcManager.gcTTL (mgr s)) new.

(** ** Sample worlds

    Concrete states on which the model is run in the examples below. *)

Module Demo.

(** The instant of the first clock reading. *)
Definition T0 : time.Time := 1700000000 * time.Second.

(** A clock whose readings are [step] apart. *)
Definition clock_every (step : time.Duration) (k : nat) : time.Time :=
  T0 + Z.of_nat k * step.

(** An upstream that grants what is asked. *)
Definition upstream_ok (k : nat) (c : PushCall) : Z * option error :=
  (push_safePoint c, None).

(** An upstream that answers with more than was asked, against its
    contract. *)
Definition upstream_above (k : nat) (c : PushCall) : Z * option error :=
  (push_safePoint c + 5, None).

(** An upstream that is down. *)
Definition upstream_down (k : nat) (c : PushCall) : Z * option error :=
  (0, Some (ErrPD "pd unavailable")).

(** A PD clock that reads [T0], and one that cannot be read. *)
Definition pdClock_ok (k : nat) : time.Time * option error := (T0, None).

Definition pdClock_down (k : nat) : time.Time * option error :=
  (0, Some (ErrPD "pd unavailable")).

Definition world (step : time.Duration)
    (up : nat -> PushCall -> Z * option error)
    (pd : nat -> time.Time * option error) : World :=
  mkWorld (clock_every step) 0 up [] pd 0 []
          gcSafepointUpdateInterval_default 86400.

Definition blank : gcManager.t := gcManager.mk "" 0 0 0 0.

(** The state right after [NewManager "ticdc"], on a clock that is read
    every [step]. *)
Definition fresh (step : time.Duration)
    (up : nat -> PushCall -> Z * option error) : Sys :=
  after (NewManager "ticdc") (mkSys blank (world step up pdClock_ok)).

(** A manager two seconds after a push that stored [safepoint]. *)
Definition holding (safepoint : Z)
    (pd : nat -> time.Time * option error) : Sys :=
  mkSys (gcManager.mk "ticdc" 86400 (T0 - 2 * time.Second)
                      (T0 - 1 * time.Second) safepoint)
        (world time.Second upstream_ok pd).

(** [oracle.ComposeTS(physical, 0)]: the timestamp of a wall-clock
    instant given in milliseconds. *)
Definition ts_of_millis (ms : Z) : Z := Z.shiftl ms oracle.physicalShiftBits.

(** The checkpoint of a changefeed that stopped [age] before [T0]: the
    timestamp just after the one of that instant. *)
Definition checkpoint_aged (age : time.Duration) : Z :=
  ts_of_millis ((T0 - age) / time.Millisecond) + 1.

Definition feed : ChangeFeedID := mkChangeFeedID "default" "feed-1".

(** A manager configured with a TTL of 9223372037 seconds, one second
    after its last success, in front of an upstream that is down. *)
Definition long_ttl : Sys :=
  mkSys (gcManager.mk "ticdc" 9223372037 (T0 - 2 * time.Second)
                      (T0 - 1 * time.Second) 100)
        (world time.Second upstream_down pdClock_ok).

End Demo.

(** * Properties *)

(** ** Arithmetic of the fixed-width types *)

Lemma uint64_sub_exact (a b : Z) :
  0 <= a - b < 2 ^ 64 -> Go.uint64_sub a b = a - b.
Proof.
  intros H. unfold Go.uint64_sub, Go.uint64_wrap.
  apply Z.mod_small. exact H.
Qed.

Lemma uint64_sub_zero_one : Go.uint64_sub 0 1 = 2 ^ 64 - 1.
Proof. reflexivity. Qed.

Lemma int64_wrap_exact (z : Z) : Go.is_int64 z -> Go.int64_wrap z = z.
Proof.
  unfold Go.is_int64, Go.int64_wrap. intros H.
  rewrite Z.mod_small by lia. lia.
Qed.

Lemma int64_mul_exact (a b : Z) :
  Go.is_int64 (a * b) -> Go.int64_mul a b = a * b.
Proof. apply int64_wrap_exact. Qed.

Lemma Sub_range (t u : time.Time) :
  time.minDuration <= time.Sub t u <= time.maxDuration.
Proof.
  unfold time.Sub, time.minDuration, time.maxDuration,
    Go.int64_min, Go.int64_max.
  cbv zeta.
  destruct (Z.ltb_spec (t - u) (- 2 ^ 63)); [lia|].
  destruct (Z.ltb_spec (2 ^ 63 - 1) (t - u)); lia.
Qed.

(** Saturation does not change a comparison with a duration. *)
Lemma Sub_lt_iff (t u : time.Time) (d : time.Duration) :
  time.minDuration < d <= time.maxDuration ->
  (time.Sub t u < d <-> t - u < d).
Proof.
  unfold time.Sub, time.minDuration, time.maxDuration,
    Go.int64_min, Go.int64_max.
  cbv zeta. intros Hd.
  destruct (Z.ltb_spec (t - u) (- 2 ^ 63)); [lia|].
  destruct (Z.ltb_spec (2 ^ 63 - 1) (t - u)); lia.
Qed.

Lemma Sub_gt_iff (t u : time.Time) (d : time.Duration) :
  time.minDuration <= d < time.maxDuration ->
  (time.Sub t u > d <-> t - u > d).
Proof.
  unfold time.Sub, time.minDuration, time.maxDuration,
    Go.int64_min, Go.int64_max.
  cbv zeta. intros Hd.
  destruct (Z.ltb_spec (t - u) (- 2 ^ 63)); [lia|].
  destruct (Z.ltb_spec (2 ^ 63 - 1) (t - u)); lia.
Qed.

(** The instant of a timestamp is its high-order bits, in milliseconds. *)
Lemma GetTimeFromTS_millis (ts : Z) :
  Go.is_uint64 ts ->
  oracle.GetTimeFromTS ts = (ts / 2 ^ 18) * time.Millisecond.
Proof.
  unfold Go.is_uint64. intros H.
  unfold oracle.GetTimeFromTS, oracle.ExtractPhysical, Go.int64_of_uint64,
    Go.uint64_shr, oracle.physicalShiftBits, time.Unix.
  cbv zeta. rewrite Z.shiftr_div_pow2 by lia.
  assert (Hq : 0 <= ts / 2 ^ 18 < 2 ^ 46).
  { split.
    - apply Z.div_pos; lia.
    - apply Z.div_lt_upper_bound; lia. }
  rewrite int64_wrap_exact by (unfold Go.is_int64; lia).
  set (ms := ts / 2 ^ 18) in *.
  rewrite Z.quot_div_nonneg, Z.rem_mod_nonneg by lia.
  change time.Second with 1000000000.
  change time.Millisecond with 1000000.
  pose proof (Z.div_mod ms 1000 ltac:(lia)). lia.
Qed.

(** ** The three ways through [TryUpdateGCSafePoint] *)

Section Paths.

Variable ctx : Context.
Variable checkpointTs : Z.
Variable forceUpdate : bool.
Variable s : Sys.

(** The push is not sent: the call only read the clock. *)
Lemma TryUpdate_skip :
  rate_limited s forceUpdate = true ->
  run (TryUpdateGCSafePoint ctx checkpointTs forceUpdate) s
  = (None, skipped s).
Proof.
  unfold rate_limited, reading, run, TryUpdateGCSafePoint. cbn.
  intros ->. reflexivity.
Qed.

(** The push is sent and fails with [err]. *)
Lemma TryUpdate_push_failed (err : error) :
  rate_limited s forceUpdate = false ->
  snd (reply ctx s checkpointTs) = Some err ->
  run (TryUpdateGCSafePoint ctx checkpointTs forceUpdate) s
  = (if grace_exceeded s
     then Some (ErrUpdateServiceSafepointFailed_Wrap err) else None,
     push_failed s checkpointTs).
Proof.
  unfold rate_limited, grace_exceeded, ttl_duration, reply, request, reading,
    run, TryUpdateGCSafePoint.
  destruct s as [m w]. cbn.
  intros -> Herr. cbn.
  change (push_reply ctx (set_reads _ _)) with (push_reply ctx w).
  rewrite Herr. cbn.
  destruct (_ >=? _); reflexivity.
Qed.

(** The push is sent and answered with [actual]. *)
Lemma TryUpdate_push_succeeded :
  rate_limited s forceUpdate = false ->
  snd (reply ctx s checkpointTs) = None ->
  run (TryUpdateGCSafePoint ctx checkpointTs forceUpdate) s
  = (None,
     push_succeeded s checkpointTs (fst (reply ctx s checkpointTs))).
Proof.
  unfold rate_limited, reply, request, reading, run, TryUpdateGCSafePoint,
    push_succeeded, log_of_success.
  destruct s as [m w]. cbn.
  intros -> Hok. cbn.
  change (push_reply ctx (set_reads _ _)) with (push_reply ctx w).
  rewrite Hok. cbn.
  destruct (_ =? _), (_ >? _); cbn;
    rewrite ?app_nil_r, <- ?app_assoc; reflexivity.
Qed.

(** Whichever way is taken, the call is over after one or three clock
    readings: it always returns. *)
Lemma TryUpdate_cases :
  let r := run (TryUpdateGCSafePoint ctx checkpointTs forceUpdate) s in
  (rate_limited s forceUpdate = true /\ r = (None, skipped s))
  \/ (rate_limited s forceUpdate = false
      /\ (exists err, snd (reply ctx s checkpointTs) = Some err
          /\ r = (if grace_exceeded s
                  then Some (ErrUpdateServiceSafepointFailed_Wrap err)
                  else None,
                  push_failed s checkpointTs)))
  \/ (rate_limited s forceUpdate = false
      /\ snd (reply ctx s checkpointTs) = None
      /\ r = (None,
              push_succeeded s checkpointTs
                (fst (reply ctx s checkpointTs)))).
Proof.
  cbv zeta.
  destruct (rate_limited s forceUpdate) eqn:Hrl.
  - left. split; [reflexivity | now apply TryUpdate_skip].
  - right. destruct (snd (reply ctx s checkpointTs)) as [err|] eqn:Hr.
    + left. split; [reflexivity|]. exists err. split; [reflexivity|].
      now apply TryUpdate_push_failed.
    + right. split; [reflexivity|]. split; [reflexivity|].
      now apply TryUpdate_push_succeeded.
Qed.

End Paths.

(** A forced call is never a skip. *)
Lemma forced_not_rate_limited (s : Sys) : rate_limited s true = false.
Proof. unfold rate_limited. apply andb_false_r. Qed.

(** A non-forced call is a skip exactly when less than the interval has
    gone by, on the saturating clock difference, since the last attempt. *)
Lemma rate_limited_iff (s : Sys) :
  rate_limited s false = true <->
  time.Sub (reading s 0) (gcManager.lastUpdatedTime (mgr s))
  < gcSafepointUpdateInterval (env s).
Proof.
  unfold rate_limited. rewrite andb_true_r. apply Z.ltb_lt.
Qed.

Lemma not_rate_limited_iff (s : Sys) :
  rate_limited s false = false <->
  gcSafepointUpdateInterval (env s)
  <= time.Sub (reading s 0) (gcManager.lastUpdatedTime (mgr s)).
Proof.
  unfold rate_limited. rewrite andb_true_r. apply Z.ltb_ge.
Qed.

(** ** Stale-checkpoint validation *)

Lemma CheckStaleCheckpointTs_run
    (ctx : Context) (id : ChangeFeedID) (cp : Z) (s : Sys) :
  run (CheckStaleCheckpointTs ctx id cp) s
  = (if Go.uint64_sub cp 1 <? gcManager.lastSafePointTs (mgr s)
     then Some (ErrSnapshotLostByGC cp (gcManager.lastSafePointTs (mgr s)))
     else None,
     s).
Proof.
  unfold run, CheckStaleCheckpointTs. cbn.
  destruct (_ <? _); reflexivity.
Qed.

(** C1.  [CheckStaleCheckpointTs(cp)] fails exactly when [cp - 1], the
    subtraction being Go's on [uint64], is below the stored
    [lastSafePointTs]; the failure is the "snapshot lost" error carrying
    [cp] and the stored safepoint; and the call changes nothing, neither
    in the manager nor around it, whether it fails or succeeds.  For a
    checkpoint from 1 up, where the subtraction does not wrap, the test is
    [cp - 1 < lastSafePointTs] on the integers. *)
Theorem CheckStaleCheckpointTs_fails_iff
    (ctx : Context) (id : ChangeFeedID) (cp : Z) (s : Sys) :
  (result (CheckStaleCheckpointTs ctx id cp) s <> None
   <-> Go.uint64_sub cp 1 < gcManager.lastSafePointTs (mgr s))
  /\ (result (CheckStaleCheckpointTs ctx id cp) s <> None ->
      result (CheckStaleCheckpointTs ctx id cp) s
      = Some (ErrSnapshotLostByGC cp (gcManager.lastSafePointTs (mgr s))))
  /\ (0 < cp < 2 ^ 64 ->
      (result (CheckStaleCheckpointTs ctx id cp) s <> None
       <-> cp - 1 < gcManager.lastSafePointTs (mgr s)))
  /\ after (CheckStaleCheckpointTs ctx id cp) s = s.
Proof.
  unfold result, after. rewrite CheckStaleCheckpointTs_run. cbn [fst snd].
  assert (Hiff :
    (if Go.uint64_sub cp 1 <? gcManager.lastSafePointTs (mgr s)
     then Some (ErrSnapshotLostByGC cp (gcManager.lastSafePointTs (mgr s)))
     else None) <> None
    <-> Go.uint64_sub cp 1 < gcManager.lastSafePointTs (mgr s)).
  { destruct (Z.ltb_spec (Go.uint64_sub cp 1)
                (gcManager.lastSafePointTs (mgr s))) as [Hlt|Hge].
    - split; [intros _; exact Hlt | intros _; discriminate].
    - split; [intros Hc; now elim Hc | lia]. }
  repeat split.
  - apply Hiff.
  - apply Hiff.
  - destruct (_ <? _); [reflexivity | intros Hc; now elim Hc].
  - rewrite <- (uint64_sub_exact cp 1) by lia. apply Hiff.
  - rewrite <- (uint64_sub_exact cp 1) by lia. apply Hiff.
Qed.

(** C9.  With checkpoint 0 the upper bound [0 - 1] wraps to [2^64 - 1],
    which no stored [uint64] safepoint exceeds: the check succeeds, and
    leaves the state as it was. *)
Theorem CheckStaleCheckpointTs_zero_succeeds
    (ctx : Context) (id : ChangeFeedID) (s : Sys) :
  Go.is_uint64 (gcManager.lastSafePointTs (mgr s)) ->
  Go.uint64_sub 0 1 = 2 ^ 64 - 1
  /\ run (CheckStaleCheckpointTs ctx id 0) s = (None, s).
Proof.
  unfold Go.is_uint64. intros Hu. split; [reflexivity|].
  rewrite CheckStaleCheckpointTs_run, uint64_sub_zero_one.
  destruct (Z.ltb_spec (2 ^ 64 - 1) (gcManager.lastSafePointTs (mgr s)));
    [lia | reflexivity].
Qed.

(** ** Retention of failed changefeeds *)

Lemma IgnoreFailedChangeFeed_result (cp : Z) (s : Sys) :
  result (IgnoreFailedChangeFeed cp) s
  = match snd (pdClock (env s) (pdReads (env s))) with
    | Some _ => false
    | None =>
        time.Sub (fst (pdClock (env s) (pdReads (env s))))
                 (oracle.GetTimeFromTS (Go.uint64_sub cp 1)) >? gcTTL
    end.
Proof.
  unfold result, run, IgnoreFailedChangeFeed. cbn.
  destruct (snd (pdClock (env s) (pdReads (env s)))); reflexivity.
Qed.

Lemma IgnoreFailedChangeFeed_mgr (cp : Z) (s : Sys) :
  mgr (after (IgnoreFailedChangeFeed cp) s) = mgr s.
Proof.
  unfold after, run, IgnoreFailedChangeFeed. cbn.
  destruct (snd (pdClock (env s) (pdReads (env s)))); reflexivity.
Qed.

(** C6.  [IgnoreFailedChangeFeed(cp)] answers [false] when the PD clock
    cannot be read; when it reads [pdTime], the answer is [true] exactly
    when [pdTime] is more than 24 hours, strictly, after the instant of the
    timestamp [cp - 1].  The subtraction is Go's on [uint64]; for a
    checkpoint from 1 up it does not wrap, and [cp - 1] is the integer one
    below [cp].  The window is the constant [gcTTL] of the package: the
    [gcTTL] field of the manager, the configured TTL in seconds, has no
    part in the answer. *)
Theorem IgnoreFailedChangeFeed_iff_older_than_window (cp : Z) (s : Sys) :
  (forall err,
      snd (pdClock (env s) (pdReads (env s))) = Some err ->
      result (IgnoreFailedChangeFeed cp) s = false)
  /\ (snd (pdClock (env s) (pdReads (env s))) = None ->
      (result (IgnoreFailedChangeFeed cp) s = true
       <-> fst (pdClock (env s) (pdReads (env s)))
           - oracle.GetTimeFromTS (Go.uint64_sub cp 1)
           > 24 * time.Hour))
  /\ (0 < cp < 2 ^ 64 ->
      snd (pdClock (env s) (pdReads (env s))) = None ->
      (result (IgnoreFailedChangeFeed cp) s = true
       <-> fst (pdClock (env s) (pdReads (env s)))
           - oracle.GetTimeFromTS (cp - 1)
           > 24 * time.Hour))
  /\ gcTTL = 24 * time.Hour
  /\ (forall ttlSeconds,
      result (IgnoreFailedChangeFeed cp)
             (mkSys (gcManager.set_gcTTL ttlSeconds (mgr s)) (env s))
      = result (IgnoreFailedChangeFeed cp) s).
Proof.
  assert (Hwin : time.minDuration <= 24 * time.Hour < time.maxDuration)
    by (vm_compute; split; [discriminate | reflexivity]).
  split; [|split; [|split; [|split]]].
  - intros err Herr. rewrite IgnoreFailedChangeFeed_result, Herr.
    reflexivity.
  - intros Hok. rewrite IgnoreFailedChangeFeed_result, Hok.
    fold gcTTL. rewrite <- (Sub_gt_iff _ _ gcTTL Hwin).
    apply Z.gtb_gt.
  - intros Hcp Hok. rewrite IgnoreFailedChangeFeed_result, Hok.
    rewrite <- (uint64_sub_exact cp 1) by lia.
    fold gcTTL. rewrite <- (Sub_gt_iff _ _ gcTTL Hwin).
    apply Z.gtb_gt.
  - reflexivity.
  - intros ttlSeconds. rewrite !IgnoreFailedChangeFeed_result. reflexivity.
Qed.

(** ** Forced pushes *)

(** C7.  A call with [forceUpdate = true] always sends a push, of the
    checkpoint it was given under the manager's service id and TTL,
    whatever the clock reads and whenever the last attempt was. *)
Theorem forced_call_always_pushes (ctx : Context) (cp : Z) (s : Sys) :
  pushes (env (after (TryUpdateGCSafePoint ctx cp true) s))
  = pushes (env s) ++ [request s cp].
Proof.
  unfold after.
  destruct (TryUpdate_cases ctx cp true s) as [[Hrl _] | [[_ H] | [_ [_ H]]]].
  - rewrite forced_not_rate_limited in Hrl. discriminate.
  - destruct H as [err [_ ->]]. reflexivity.
  - rewrite H. reflexivity.
Qed.

(** ** Sequencing *)

Lemma run_bind {A B : Type} (c : M A) (k : A -> M B) (s : Sys) :
  run (x <- c ;; k x) s = run (k (fst (run c s))) (snd (run c s)).
Proof.
  unfold run. cbn. destruct (runState c s). reflexivity.
Qed.

Lemma run_ret {A : Type} (a : A) (s : Sys) : run (ret a) s = (a, s).
Proof. reflexivity. Qed.

(** What every call that sends a push leaves behind, whatever the answer:
    the attempt is dated with the second clock reading of the call, three
    readings were consumed, one request was added, and the configuration
    of the manager and of the package is as before. *)
Lemma TryUpdate_attempt_frame
    (ctx : Context) (cp : Z) (force : bool) (s : Sys) :
  rate_limited s force = false ->
  gcManager.lastUpdatedTime (mgr (after (TryUpdateGCSafePoint ctx cp force) s))
  = reading s 1
  /\ reads (env (after (TryUpdateGCSafePoint ctx cp force) s))
     = (3 + reads (env s))%nat
  /\ pushes (env (after (TryUpdateGCSafePoint ctx cp force) s))
     = pushes (env s) ++ [request s cp]
  /\ clock (env (after (TryUpdateGCSafePoint ctx cp force) s)) = clock (env s)
  /\ gcSafepointUpdateInterval
       (env (after (TryUpdateGCSafePoint ctx cp force) s))
     = gcSafepointUpdateInterval (env s).
Proof.
  intros Hrl. unfold after.
  destruct (TryUpdate_cases ctx cp force s) as [[H _] | [[_ H] | [_ [_ H]]]].
  - congruence.
  - destruct H as [err [_ ->]]. repeat split.
  - rewrite H. repeat split.
Qed.

Lemma reading_advance (n k : nat) (s : Sys) :
  reading (advance n s) k = reading s (k + n).
Proof.
  unfold reading, advance. cbn. now rewrite Nat.add_assoc.
Qed.

Lemma advance_advance (n k : nat) (s : Sys) :
  advance k (advance n s) = advance (k + n) s.
Proof.
  unfold advance. cbn. now rewrite Nat.add_assoc.
Qed.

(** A run of ticks that are all inside the window: every call is skipped,
    and only clock readings were consumed. *)
Lemma owner_ticks_all_skipped (ctx : Context) (cps : list Z) :
  forall s : Sys,
    (forall k, (k < List.length cps)%nat ->
               time.Sub (reading s k) (gcManager.lastUpdatedTime (mgr s))
               < gcSafepointUpdateInterval (env s)) ->
    run (owner_ticks ctx cps) s
    = (map (fun _ => None) cps, advance (List.length cps) s).
Proof.
  induction cps as [|cp rest IH]; intros s Hin.
  - destruct s as [m []]. reflexivity.
  - cbn [owner_ticks]. rewrite run_bind.
    assert (Hskip : rate_limited s false = true).
    { apply rate_limited_iff. apply (Hin 0%nat). cbn. lia. }
    rewrite (TryUpdate_skip ctx cp false s Hskip). cbn [fst snd].
    rewrite run_bind.
    change (skipped s) with (advance 1 s).
    rewrite IH.
    + cbn [fst snd]. rewrite run_ret, advance_advance.
      cbn [map List.length]. now rewrite Nat.add_1_r.
    + intros k Hk. rewrite reading_advance, Nat.add_1_r.
      apply (Hin (S k)). cbn. lia.
Qed.

(** ** Rate limiting *)

(** C2, as the code has it.  A non-forced call made less than
    [gcSafepointUpdateInterval] after the last attempt returns [nil] at
    once: no request reaches the upstream service and the manager is
    untouched.  Two non-forced calls in a row therefore send exactly one
    request in two cases: the first finds the interval gone by and the
    second comes less than the interval after that attempt, or the first
    is skipped and the second finds the interval gone by.  They send none
    when both come less than the interval after the last attempt. *)
Theorem rate_limited_call_skips_push :
  (forall (ctx : Context) (cp : Z) (s : Sys),
      time.Sub (reading s 0) (gcManager.lastUpdatedTime (mgr s))
      < gcSafepointUpdateInterval (env s) ->
      result (TryUpdateGCSafePoint ctx cp false) s = None
      /\ pushes (env (after (TryUpdateGCSafePoint ctx cp false) s))
         = pushes (env s)
      /\ mgr (after (TryUpdateGCSafePoint ctx cp false) s) = mgr s)
  /\ (forall (ctx1 ctx2 : Context) (cp1 cp2 : Z) (s : Sys),
      gcSafepointUpdateInterval (env s)
      <= time.Sub (reading s 0) (gcManager.lastUpdatedTime (mgr s)) ->
      time.Sub (reading s 3) (reading s 1)
      < gcSafepointUpdateInterval (env s) ->
      pushes (env (after (_ <- TryUpdateGCSafePoint ctx1 cp1 false ;;
                          TryUpdateGCSafePoint ctx2 cp2 false) s))
      = pushes (env s) ++ [request s cp1])
  /\ (forall (ctx1 ctx2 : Context) (cp1 cp2 : Z) (s : Sys),
      time.Sub (reading s 0) (gcManager.lastUpdatedTime (mgr s))
      < gcSafepointUpdateInterval (env s) ->
      gcSafepointUpdateInterval (env s)
      <= time.Sub (reading s 1) (gcManager.lastUpdatedTime (mgr s)) ->
      pushes (env (after (_ <- TryUpdateGCSafePoint ctx1 cp1 false ;;
                          TryUpdateGCSafePoint ctx2 cp2 false) s))
      = pushes (env s) ++ [request s cp2])
  /\ (forall (ctx1 ctx2 : Context) (cp1 cp2 : Z) (s : Sys),
      time.Sub (reading s 0) (gcManager.lastUpdatedTime (mgr s))
      < gcSafepointUpdateInterval (env s) ->
      time.Sub (reading s 1) (gcManager.lastUpdatedTime (mgr s))
      < gcSafepointUpdateInterval (env s) ->
      pushes (env (after (_ <- TryUpdateGCSafePoint ctx1 cp1 false ;;
                          TryUpdateGCSafePoint ctx2 cp2 false) s))
      = pushes (env s)).
Proof.
  split; [|split; [|split]].
  - intros ctx cp s Hlt. apply rate_limited_iff in Hlt.
    unfold result, after. rewrite (TryUpdate_skip ctx cp false s Hlt).
    repeat split.
  - intros ctx1 ctx2 cp1 cp2 s Hfirst Hsecond.
    apply not_rate_limited_iff in Hfirst.
    destruct (TryUpdate_attempt_frame ctx1 cp1 false s Hfirst)
      as (Hupd & Hreads & Hpushes & Hclock & Hint).
    unfold after in *. rewrite run_bind.
    set (s1 := snd (run (TryUpdateGCSafePoint ctx1 cp1 false) s)) in *.
    assert (Hskip : rate_limited s1 false = true).
    { apply rate_limited_iff. unfold reading in *.
      rewrite Hupd, Hreads, Hclock, Hint. exact Hsecond. }
    rewrite (TryUpdate_skip ctx2 cp2 false s1 Hskip). cbn [snd].
    exact Hpushes.
  - intros ctx1 ctx2 cp1 cp2 s Hfirst Hsecond.
    apply rate_limited_iff in Hfirst.
    unfold after. rewrite run_bind.
    rewrite (TryUpdate_skip ctx1 cp1 false s Hfirst). cbn [fst snd].
    assert (Hgo : rate_limited (skipped s) false = false).
    { apply not_rate_limited_iff. exact Hsecond. }
    destruct (TryUpdate_attempt_frame ctx2 cp2 false (skipped s) Hgo)
      as (_ & _ & Hpushes & _).
    exact Hpushes.
  - intros ctx1 ctx2 cp1 cp2 s Hfirst Hsecond.
    apply rate_limited_iff in Hfirst.
    unfold after. rewrite run_bind.
    rewrite (TryUpdate_skip ctx1 cp1 false s Hfirst). cbn [fst snd].
    assert (Hskip : rate_limited (skipped s) false = true).
    { apply rate_limited_iff. exact Hsecond. }
    rewrite (TryUpdate_skip ctx2 cp2 false (skipped s) Hskip). reflexivity.
Qed.

(** C10.  A skipped call leaves every field of the manager as it was,
    [lastUpdatedTime] included, and sends and logs nothing.  The window is
    therefore counted from the last attempt, not from the last call: after
    any run of ticks that all fall inside the window the manager is still
    the same, and the first tick at which the interval has gone by since
    that attempt sends a push. *)
Theorem skipped_call_keeps_manager_and_window :
  (forall (ctx : Context) (cp : Z) (s : Sys),
      rate_limited s false = true ->
      mgr (after (TryUpdateGCSafePoint ctx cp false) s) = mgr s
      /\ pushes (env (after (TryUpdateGCSafePoint ctx cp false) s))
         = pushes (env s)
      /\ logs (env (after (TryUpdateGCSafePoint ctx cp false) s))
         = logs (env s))
  /\ (forall (ctx : Context) (cps : list Z) (cp : Z) (s : Sys),
      (forall k, (k < List.length cps)%nat ->
                 time.Sub (reading s k) (gcManager.lastUpdatedTime (mgr s))
                 < gcSafepointUpdateInterval (env s)) ->
      gcSafepointUpdateInterval (env s)
      <= time.Sub (reading s (List.length cps))
                  (gcManager.lastUpdatedTime (mgr s)) ->
      mgr (after (owner_ticks ctx cps) s) = mgr s
      /\ pushes (env (after (owner_ticks ctx cps) s)) = pushes (env s)
      /\ pushes (env (after (TryUpdateGCSafePoint ctx cp false)
                        (after (owner_ticks ctx cps) s)))
         = pushes (env s) ++ [request s cp]).
Proof.
  split.
  - intros ctx cp s Hskip. unfold after.
    rewrite (TryUpdate_skip ctx cp false s Hskip). repeat split.
  - intros ctx cps cp s Hin Hout. unfold after at 1 2 4.
    rewrite (owner_ticks_all_skipped ctx cps s Hin). cbn [snd].
    split; [reflexivity|]. split; [reflexivity|].
    assert (Hgo : rate_limited (advance (List.length cps) s) false = false).
    { apply not_rate_limited_iff. rewrite reading_advance. exact Hout. }
    destruct (TryUpdate_attempt_frame ctx cp false _ Hgo)
      as (_ & _ & Hpushes & _).
    exact Hpushes.
Qed.

(** ** Failed pushes *)

(** With a TTL that fits a [Duration], the test made after a failed push
    compares the clock with [lastSucceededTime] plus the TTL. *)
Lemma grace_exceeded_iff (s : Sys) :
  Go.is_int64 (time.Second * gcManager.gcTTL (mgr s)) ->
  (grace_exceeded s = true
   <-> gcManager.lastSucceededTime (mgr s)
       + gcManager.gcTTL (mgr s) * time.Second <= reading s 2).
Proof.
  intros Httl. unfold grace_exceeded, ttl_duration.
  rewrite int64_mul_exact by exact Httl.
  unfold Go.is_int64 in Httl.
  change time.Second with 1000000000 in *.
  set (ttl := gcManager.gcTTL (mgr s)) in *.
  set (t0 := gcManager.lastSucceededTime (mgr s)).
  assert (Hd : time.minDuration < 1000000000 * ttl <= time.maxDuration).
  { unfold time.minDuration, time.maxDuration, Go.int64_min, Go.int64_max.
    lia. }
  pose proof (Sub_lt_iff (reading s 2) t0 _ Hd) as Hsub.
  rewrite Z.geb_leb, Z.leb_le. lia.
Qed.

(** C3, as the code has it.  When the push fails, with a TTL whose count
    of nanoseconds fits a [Duration], the call returns the fatal error, wrapping the cause, exactly when the clock
    read after the failure is at or past [lastSucceededTime] plus the TTL,
    and returns [nil] exactly when it is strictly before that instant.
    Either way [lastUpdatedTime] holds the instant read just before the
    push. *)
Theorem failed_push_fatal_iff_grace_exceeded
    (ctx : Context) (cp : Z) (force : bool) (s : Sys) (err : error) :
  rate_limited s force = false ->
  snd (reply ctx s cp) = Some err ->
  Go.is_int64 (time.Second * gcManager.gcTTL (mgr s)) ->
  (result (TryUpdateGCSafePoint ctx cp force) s
   = Some (ErrUpdateServiceSafepointFailed_Wrap err)
   <-> gcManager.lastSucceededTime (mgr s)
       + gcManager.gcTTL (mgr s) * time.Second <= reading s 2)
  /\ (result (TryUpdateGCSafePoint ctx cp force) s = None
      <-> reading s 2 < gcManager.lastSucceededTime (mgr s)
                        + gcManager.gcTTL (mgr s) * time.Second)
  /\ gcManager.lastUpdatedTime
       (mgr (after (TryUpdateGCSafePoint ctx cp force) s))
     = reading s 1.
Proof.
  intros Hrl Herr Httl.
  unfold result, after.
  rewrite (TryUpdate_push_failed ctx cp force s err Hrl Herr).
  cbn [fst snd].
  unfold grace_exceeded, ttl_duration.
  rewrite int64_mul_exact by exact Httl.
  unfold Go.is_int64 in Httl.
  change time.Second with 1000000000 in *.
  set (ttl := gcManager.gcTTL (mgr s)) in *.
  set (t0 := gcManager.lastSucceededTime (mgr s)).
  assert (Hd : time.minDuration < 1000000000 * ttl <= time.maxDuration).
  { unfold time.minDuration, time.maxDuration, Go.int64_min, Go.int64_max.
    lia. }
  pose proof (Sub_lt_iff (reading s 2) t0 _ Hd) as Hsub.
  rewrite Z.geb_leb.
  destruct (Z.leb_spec (1000000000 * ttl) (time.Sub (reading s 2) t0))
    as [Hle|Hlt].
  - assert (~ reading s 2 - t0 < 1000000000 * ttl) by (rewrite <- Hsub; lia).
    repeat split; try discriminate; try reflexivity; lia.
  - apply Hsub in Hlt.
    repeat split; try discriminate; try reflexivity; lia.
Qed.

(** ** Successful pushes *)

(** C4.  When the push succeeds with [actual], the call returns [nil],
    [lastSafePointTs] becomes [actual] and [lastSucceededTime] the instant
    read after the push, however [actual] compares with the checkpoint
    asked for.  An [actual] above the checkpoint changes one thing only: a
    warning is appended to the log. *)
Theorem successful_push_is_recorded
    (ctx : Context) (cp : Z) (force : bool) (s : Sys) :
  rate_limited s force = false ->
  snd (reply ctx s cp) = None ->
  result (TryUpdateGCSafePoint ctx cp force) s = None
  /\ gcManager.lastSafePointTs
       (mgr (after (TryUpdateGCSafePoint ctx cp force) s))
     = fst (reply ctx s cp)
  /\ gcManager.lastSucceededTime
       (mgr (after (TryUpdateGCSafePoint ctx cp force) s))
     = reading s 2
  /\ (fst (reply ctx s cp) > cp ->
      logs (env (after (TryUpdateGCSafePoint ctx cp force) s))
      = logs (env s)
        ++ [mkLog Warn "update gc safe point failed, the gc safe point is larger than checkpointTs"]).
Proof.
  intros Hrl Hok. unfold result, after.
  rewrite (TryUpdate_push_succeeded ctx cp force s Hrl Hok).
  cbn [fst snd]. repeat split.
  intros Hgt. unfold push_succeeded, log_of_success. cbn.
  destruct (Z.eqb_spec (fst (reply ctx s cp)) cp) as [Heq|_]; [lia|].
  apply Z.gtb_gt in Hgt. rewrite Hgt. reflexivity.
Qed.

(** ** Who writes [lastSafePointTs] *)

(** C5.  [lastSafePointTs] changes only in a call of
    [TryUpdateGCSafePoint] whose push succeeded, and then to the answer of
    that push.  A skipped call and a call whose push failed, inside the
    grace window or past it, leave the field as it was, and so do
    [CheckStaleCheckpointTs] and [IgnoreFailedChangeFeed]. *)
Theorem lastSafePointTs_written_only_by_successful_push :
  (forall (ctx : Context) (cp : Z) (force : bool) (s : Sys),
      rate_limited s force = true \/ snd (reply ctx s cp) <> None ->
      gcManager.lastSafePointTs
        (mgr (after (TryUpdateGCSafePoint ctx cp force) s))
      = gcManager.lastSafePointTs (mgr s))
  /\ (forall (ctx : Context) (cp : Z) (force : bool) (s : Sys),
      rate_limited s force = false ->
      snd (reply ctx s cp) = None ->
      gcManager.lastSafePointTs
        (mgr (after (TryUpdateGCSafePoint ctx cp force) s))
      = fst (reply ctx s cp))
  /\ (forall (ctx : Context) (id : ChangeFeedID) (cp : Z) (s : Sys),
      gcManager.lastSafePointTs
        (mgr (after (CheckStaleCheckpointTs ctx id cp) s))
      = gcManager.lastSafePointTs (mgr s))
  /\ (forall (cp : Z) (s : Sys),
      gcManager.lastSafePointTs (mgr (after (IgnoreFailedChangeFeed cp) s))
      = gcManager.lastSafePointTs (mgr s)).
Proof.
  repeat split.
  - intros ctx cp force s Hpath. unfold after.
    destruct (TryUpdate_cases ctx cp force s)
      as [[_ H] | [[_ H] | [Hrl [Hok H]]]].
    + rewrite H. reflexivity.
    + destruct H as [err [_ ->]]. reflexivity.
    + destruct Hpath as [Hskip | Hfail]; [congruence | now elim Hfail].
  - intros ctx cp force s Hrl Hok. unfold after.
    rewrite (TryUpdate_push_succeeded ctx cp force s Hrl Hok). reflexivity.
  - intros ctx id cp s. unfold after.
    rewrite CheckStaleCheckpointTs_run. reflexivity.
  - intros cp s. now rewrite IgnoreFailedChangeFeed_mgr.
Qed.

(** ** Cancelled pushes *)

(** C8, as the code has it.  A push ended by the caller's context is a
    failed push like any other: the call returns [nil] or the fatal error
    wrapping the context's error, as the test of the grace window decides.
    With a TTL whose count of nanoseconds fits a [Duration] it returns
    [nil] exactly when the clock read after the failure is strictly before
    [lastSucceededTime] plus the TTL, and the fatal error exactly when it
    is at or past that instant.  In every case [lastSucceededTime] and
    [lastSafePointTs] are as before. *)
Theorem cancelled_push_is_a_failed_push
    (ctx : Context) (cp : Z) (force : bool) (s : Sys) (err : error) :
  rate_limited s force = false ->
  ctx_Err ctx = Some err ->
  result (TryUpdateGCSafePoint ctx cp force) s
  = (if grace_exceeded s
     then Some (ErrUpdateServiceSafepointFailed_Wrap err) else None)
  /\ (Go.is_int64 (time.Second * gcManager.gcTTL (mgr s)) ->
      (result (TryUpdateGCSafePoint ctx cp force) s = None
       <-> reading s 2 < gcManager.lastSucceededTime (mgr s)
                         + gcManager.gcTTL (mgr s) * time.Second)
      /\ (result (TryUpdateGCSafePoint ctx cp force) s
          = Some (ErrUpdateServiceSafepointFailed_Wrap err)
          <-> gcManager.lastSucceededTime (mgr s)
              + gcManager.gcTTL (mgr s) * time.Second <= reading s 2))
  /\ gcManager.lastSucceededTime
       (mgr (after (TryUpdateGCSafePoint ctx cp force) s))
     = gcManager.lastSucceededTime (mgr s)
  /\ gcManager.lastSafePointTs
       (mgr (after (TryUpdateGCSafePoint ctx cp force) s))
     = gcManager.lastSafePointTs (mgr s).
Proof.
  intros Hrl Hctx.
  assert (Herr : snd (reply ctx s cp) = Some err).
  { unfold reply, push_reply. rewrite Hctx. reflexivity. }
  unfold result, after.
  rewrite (TryUpdate_push_failed ctx cp force s err Hrl Herr).
  cbn [fst snd].
  split; [reflexivity|]. split; [|split; reflexivity].
  intros Httl. pose proof (grace_exceeded_iff s Httl) as Hiff.
  destruct (grace_exceeded s).
  - pose proof (proj1 Hiff eq_refl) as Hpast. split.
    + split; [discriminate | intros Hlt; lia].
    + split; [intros _; exact Hpast | reflexivity].
  - assert (Hbefore : reading s 2
                      < gcManager.lastSucceededTime (mgr s)
                        + gcManager.gcTTL (mgr s) * time.Second).
    { destruct (Z.lt_ge_cases (reading s 2)
                  (gcManager.lastSucceededTime (mgr s)
                   + gcManager.gcTTL (mgr s) * time.Second))
        as [Hlt|Hge]; [exact Hlt|].
      now pose proof (proj2 Hiff Hge). }
    split.
    + split; [intros _; exact Hbefore | reflexivity].
    + split; [discriminate | intros Hge; lia].
Qed.

(** ** A fresh manager *)

(** The first non-forced call on a manager just built is never skipped:
    [lastUpdatedTime] is the zero [Time], so far back that the elapsed
    time saturates, provided the clock reads a date after the year 293. *)
Lemma NewManager_first_call_not_rate_limited (id : string) (s : Sys) :
  time.zero + time.maxDuration <= reading s 1 ->
  gcSafepointUpdateInterval (env s) <= time.maxDuration ->
  rate_limited (after (NewManager id) s) false = false.
Proof.
  intros Hclock Hint. apply not_rate_limited_iff.
  change (reading (after (NewManager id) s) 0) with (reading s 1).
  change (gcManager.lastUpdatedTime (mgr (after (NewManager id) s)))
    with time.zero.
  change (gcSafepointUpdateInterval (env (after (NewManager id) s)))
    with (gcSafepointUpdateInterval (env s)).
  pose proof (Sub_range (reading s 1) time.zero) as Hr.
  destruct (Z.lt_ge_cases (time.Sub (reading s 1) time.zero)
              time.maxDuration) as [Hlt|Hge]; [|lia].
  apply Sub_lt_iff in Hlt; [lia|].
  vm_compute. split; [reflexivity | discriminate].
Qed.

(** A TTL of more than 292 years does not fit a [Duration]: the product
    wraps to a negative duration, and a push that fails the very instant
    after a success is already fatal. *)
Example ttl_duration_wraps :
  Go.int64_mul time.Second 9223372037 = -9223372036709551616.
Proof. reflexivity. Qed.

(** * The properties on the sample worlds *)

(** C1 on the document's example: with safepoint 100, checkpoint 100 is
    refused and checkpoint 102 is accepted. *)
Lemma CheckStaleCheckpointTs_fails_iff_witness :
  result (CheckStaleCheckpointTs ctx_live Demo.feed 100)
         (Demo.holding 100 Demo.pdClock_ok)
  = Some (ErrSnapshotLostByGC 100 100)
  /\ ~ result (CheckStaleCheckpointTs ctx_live Demo.feed 102)
              (Demo.holding 100 Demo.pdClock_ok) <> None.
Proof.
  split.
  - destruct (CheckStaleCheckpointTs_fails_iff ctx_live Demo.feed 100
                (Demo.holding 100 Demo.pdClock_ok)) as (Hiff & Hval & _).
    apply Hval, Hiff. vm_compute. reflexivity.
  - destruct (CheckStaleCheckpointTs_fails_iff ctx_live Demo.feed 102
                (Demo.holding 100 Demo.pdClock_ok)) as (Hiff & _).
    intros Hfail. apply Hiff in Hfail. vm_compute in Hfail. discriminate.
Defined.

(** C9 at the largest safepoint a [uint64] holds. *)
Lemma CheckStaleCheckpointTs_zero_succeeds_witness :
  Go.is_uint64
    (gcManager.lastSafePointTs (mgr (Demo.holding (2 ^ 64 - 1) Demo.pdClock_ok)))
  /\ run (CheckStaleCheckpointTs ctx_live Demo.feed 0)
         (Demo.holding (2 ^ 64 - 1) Demo.pdClock_ok)
     = (None, Demo.holding (2 ^ 64 - 1) Demo.pdClock_ok).
Proof.
  assert (Hu : Go.is_uint64
                 (gcManager.lastSafePointTs
                    (mgr (Demo.holding (2 ^ 64 - 1) Demo.pdClock_ok)))).
  { vm_compute. split; [discriminate | reflexivity]. }
  split; [exact Hu|].
  exact (proj2 (CheckStaleCheckpointTs_zero_succeeds ctx_live Demo.feed
                  (Demo.holding (2 ^ 64 - 1) Demo.pdClock_ok) Hu)).
Defined.

(** C6 on the document's example: a changefeed that stopped 25 hours ago
    is ignored, one that stopped 23 hours ago is not, and none is when the
    PD clock cannot be read.  At the edge of the window the one timestamp
    taken off the checkpoint decides: the checkpoint whose own instant is
    24 hours back is ignored, since the timestamp below it is a
    millisecond older, and the checkpoint after it is not. *)
Lemma IgnoreFailedChangeFeed_iff_older_than_window_witness :
  result (IgnoreFailedChangeFeed (Demo.checkpoint_aged (25 * time.Hour)))
         (Demo.holding 100 Demo.pdClock_ok) = true
  /\ result (IgnoreFailedChangeFeed (Demo.checkpoint_aged (23 * time.Hour)))
            (Demo.holding 100 Demo.pdClock_ok) <> true
  /\ result (IgnoreFailedChangeFeed (Demo.checkpoint_aged (25 * time.Hour)))
            (Demo.holding 100 Demo.pdClock_down) = false
  /\ result (IgnoreFailedChangeFeed
               (Demo.checkpoint_aged (24 * time.Hour) - 1))
            (Demo.holding 100 Demo.pdClock_ok) = true
  /\ result (IgnoreFailedChangeFeed (Demo.checkpoint_aged (24 * time.Hour)))
            (Demo.holding 100 Demo.pdClock_ok) <> true.
Proof.
  split; [|split; [|split; [|split]]].
  - destruct (IgnoreFailedChangeFeed_iff_older_than_window
                (Demo.checkpoint_aged (25 * time.Hour))
                (Demo.holding 100 Demo.pdClock_ok)) as (_ & Hiff & _).
    apply Hiff; vm_compute; reflexivity.
  - destruct (IgnoreFailedChangeFeed_iff_older_than_window
                (Demo.checkpoint_aged (23 * time.Hour))
                (Demo.holding 100 Demo.pdClock_ok)) as (_ & Hiff & _).
    intros Htrue. apply Hiff in Htrue; [|reflexivity].
    vm_compute in Htrue. discriminate.
  - destruct (IgnoreFailedChangeFeed_iff_older_than_window
                (Demo.checkpoint_aged (25 * time.Hour))
                (Demo.holding 100 Demo.pdClock_down)) as (Hdown & _).
    apply (Hdown (ErrPD "pd unavailable")). reflexivity.
  - destruct (IgnoreFailedChangeFeed_iff_older_than_window
                (Demo.checkpoint_aged (24 * time.Hour) - 1)
                (Demo.holding 100 Demo.pdClock_ok)) as (_ & _ & Hplain & _).
    apply Hplain.
    + vm_compute. split; reflexivity.
    + reflexivity.
    + vm_compute. reflexivity.
  - destruct (IgnoreFailedChangeFeed_iff_older_than_window
                (Demo.checkpoint_aged (24 * time.Hour))
                (Demo.holding 100 Demo.pdClock_ok)) as (_ & _ & Hplain & _).
    intros Htrue. apply Hplain in Htrue.
    + vm_compute in Htrue. discriminate.
    + vm_compute. split; reflexivity.
    + reflexivity.
Defined.

(** C2 fails as stated: two non-forced calls a second apart, both less
    than the interval after the last attempt, send no request at all. *)
Lemma two_calls_inside_window_send_nothing :
  (time.Sub (reading (Demo.holding 100 Demo.pdClock_ok) 0)
            (gcManager.lastUpdatedTime (mgr (Demo.holding 100 Demo.pdClock_ok)))
   < gcSafepointUpdateInterval (env (Demo.holding 100 Demo.pdClock_ok))
   /\ reading (Demo.holding 100 Demo.pdClock_ok) 1
       - reading (Demo.holding 100 Demo.pdClock_ok) 0
      < gcSafepointUpdateInterval (env (Demo.holding 100 Demo.pdClock_ok)))
  /\ pushes_sent (Demo.holding 100 Demo.pdClock_ok)
       (after (_ <- TryUpdateGCSafePoint ctx_live 110 false ;;
               TryUpdateGCSafePoint ctx_live 120 false)
          (Demo.holding 100 Demo.pdClock_ok))
     = 0.
Proof.
  repeat split; vm_compute; reflexivity.
Qed.

(** C2 as the code has it: a call two seconds after an attempt is
    skipped; the first two ticks of a fresh manager send one request, the
    first tick's; two ticks that straddle the end of the window send one
    request, the second tick's; and two ticks inside the window send
    none. *)
Lemma rate_limited_call_skips_push_witness :
  (result (TryUpdateGCSafePoint ctx_live 120 false)
          (Demo.holding 100 Demo.pdClock_ok) = None
   /\ pushes (env (after (TryUpdateGCSafePoint ctx_live 120 false)
                     (Demo.holding 100 Demo.pdClock_ok)))
      = pushes (env (Demo.holding 100 Demo.pdClock_ok)))
  /\ pushes (env (after (_ <- TryUpdateGCSafePoint ctx_live 100 false ;;
                         TryUpdateGCSafePoint ctx_live 120 false)
                    (Demo.fresh time.Second Demo.upstream_ok)))
     = pushes (env (Demo.fresh time.Second Demo.upstream_ok))
       ++ [request (Demo.fresh time.Second Demo.upstream_ok) 100]
  /\ pushes (env (after (_ <- TryUpdateGCSafePoint ctx_live 110 false ;;
                         TryUpdateGCSafePoint ctx_live 120 false)
                    (advance 57 (Demo.holding 100 Demo.pdClock_ok))))
     = pushes (env (advance 57 (Demo.holding 100 Demo.pdClock_ok)))
       ++ [request (advance 57 (Demo.holding 100 Demo.pdClock_ok)) 120]
  /\ pushes (env (after (_ <- TryUpdateGCSafePoint ctx_live 110 false ;;
                         TryUpdateGCSafePoint ctx_live 120 false)
                    (Demo.holding 100 Demo.pdClock_ok)))
     = pushes (env (Demo.holding 100 Demo.pdClock_ok)).
Proof.
  destruct rate_limited_call_skips_push as (Hskip & Htwo & Hlate & Hnone).
  split; [|split; [|split]].
  - destruct (Hskip ctx_live 120 (Demo.holding 100 Demo.pdClock_ok))
      as (Hnil & Hpushes & _).
    + vm_compute. reflexivity.
    + split; [exact Hnil | exact Hpushes].
  - apply Htwo.
    + vm_compute. discriminate.
    + vm_compute. reflexivity.
  - apply Hlate.
    + vm_compute. reflexivity.
    + vm_compute. discriminate.
  - apply Hnone; vm_compute; reflexivity.
Defined.

(** C10: with ticks a second apart, the 58 ticks that follow an attempt
    made two seconds ago change nothing, and the next one, a full minute
    after the attempt, sends a push. *)
Lemma skipped_call_keeps_manager_and_window_witness :
  mgr (after (TryUpdateGCSafePoint ctx_live 120 false)
         (Demo.holding 100 Demo.pdClock_ok))
  = mgr (Demo.holding 100 Demo.pdClock_ok)
  /\ mgr (after (owner_ticks ctx_live (repeat 120 58))
            (Demo.holding 100 Demo.pdClock_ok))
     = mgr (Demo.holding 100 Demo.pdClock_ok)
  /\ pushes (env (after (TryUpdateGCSafePoint ctx_live 130 false)
                    (after (owner_ticks ctx_live (repeat 120 58))
                       (Demo.holding 100 Demo.pdClock_ok))))
     = pushes (env (Demo.holding 100 Demo.pdClock_ok))
       ++ [request (Demo.holding 100 Demo.pdClock_ok) 130].
Proof.
  destruct skipped_call_keeps_manager_and_window as [Hskip Hticks].
  split.
  - apply (Hskip ctx_live 120 (Demo.holding 100 Demo.pdClock_ok)).
    vm_compute. reflexivity.
  - destruct (Hticks ctx_live (repeat 120 58) 130
                (Demo.holding 100 Demo.pdClock_ok)) as (Hmgr & _ & Hpush).
    + intros k Hk. rewrite repeat_length in Hk.
      unfold reading, Demo.holding, Demo.world, Demo.clock_every, Demo.T0.
      cbn [env clock reads mgr gcManager.lastUpdatedTime
           gcSafepointUpdateInterval].
      apply Sub_lt_iff; [vm_compute; split; [reflexivity | discriminate]|].
      change gcSafepointUpdateInterval_default with 60000000000.
      change time.Second with 1000000000. lia.
    + vm_compute. discriminate.
    + split; [exact Hmgr | exact Hpush].
Defined.


(** On the sample clocks, which never run backwards, the first non-forced
    call of a fresh manager sends a push. *)
Lemma fresh_not_rate_limited (step : time.Duration)
    (up : nat -> PushCall -> Z * option error) :
  0 <= step -> rate_limited (Demo.fresh step up) false = false.
Proof.
  intros Hstep. unfold Demo.fresh.
  apply NewManager_first_call_not_rate_limited.
  - unfold reading, Demo.world, Demo.clock_every.
    cbn [env clock reads Nat.add].
    change (time.zero + time.maxDuration) with (-52912224763145224193).
    change Demo.T0 with 1700000000000000000.
    change (Z.of_nat 1) with 1. lia.
  - vm_compute. discriminate.
Qed.

Lemma sample_steps_nonnegative : 0 <= time.Second /\ 0 <= 8 * time.Hour.
Proof. split; vm_compute; discriminate. Qed.

Lemma sample_ttl_fits (step : time.Duration)
    (up : nat -> PushCall -> Z * option error) :
  Go.is_int64 (time.Second * gcManager.gcTTL (mgr (Demo.fresh step up))).
Proof. unfold Go.is_int64. vm_compute. split; discriminate. Qed.

(** C3 fails as stated: with a TTL of 9223372037 seconds a push that
    fails three seconds after the last success, far inside the TTL, makes
    the call return the fatal error. *)
Lemma failed_push_fatal_inside_long_ttl :
  snd (reply ctx_live Demo.long_ttl 300) = Some (ErrPD "pd unavailable")
  /\ reading Demo.long_ttl 2 - gcManager.lastSucceededTime (mgr Demo.long_ttl)
     = 3 * time.Second
  /\ reading Demo.long_ttl 2
     < gcManager.lastSucceededTime (mgr Demo.long_ttl)
       + gcManager.gcTTL (mgr Demo.long_ttl) * time.Second
  /\ result (TryUpdateGCSafePoint ctx_live 300 true) Demo.long_ttl
     = Some (ErrUpdateServiceSafepointFailed_Wrap (ErrPD "pd unavailable")).
Proof.
  repeat split; vm_compute; reflexivity.
Qed.

(** C3 at the boundary: the manager was built at [T0] with a TTL of one
    day, the upstream is down, and the clock read after the failed push
    shows exactly [T0] plus one day: the call is fatal.  With readings a
    second apart the same failure is swallowed. *)
Lemma failed_push_fatal_iff_grace_exceeded_witness :
  (rate_limited (Demo.fresh (8 * time.Hour) Demo.upstream_down) false = false
   /\ snd (reply ctx_live (Demo.fresh (8 * time.Hour) Demo.upstream_down) 100)
      = Some (ErrPD "pd unavailable")
   /\ Go.is_int64
        (time.Second
         * gcManager.gcTTL
             (mgr (Demo.fresh (8 * time.Hour) Demo.upstream_down))))
  /\ result (TryUpdateGCSafePoint ctx_live 100 false)
            (Demo.fresh (8 * time.Hour) Demo.upstream_down)
     = Some (ErrUpdateServiceSafepointFailed_Wrap (ErrPD "pd unavailable"))
  /\ result (TryUpdateGCSafePoint ctx_live 100 false)
            (Demo.fresh time.Second Demo.upstream_down)
     = None.
Proof.
  destruct sample_steps_nonnegative as [Hsec Hhours].
  pose proof (fresh_not_rate_limited _ Demo.upstream_down Hhours) as Hrl8.
  pose proof (fresh_not_rate_limited _ Demo.upstream_down Hsec) as Hrl1.
  split; [|split].
  - split; [exact Hrl8 | split; [reflexivity | apply sample_ttl_fits]].
  - apply (failed_push_fatal_iff_grace_exceeded ctx_live 100 false
             (Demo.fresh (8 * time.Hour) Demo.upstream_down)
             (ErrPD "pd unavailable") Hrl8 eq_refl (sample_ttl_fits _ _)).
    vm_compute. discriminate.
  - apply (failed_push_fatal_iff_grace_exceeded ctx_live 100 false
             (Demo.fresh time.Second Demo.upstream_down)
             (ErrPD "pd unavailable") Hrl1 eq_refl (sample_ttl_fits _ _)).
    vm_compute. reflexivity.
Defined.

(** C4 against an upstream that answers 105 to a request of 100: the call
    succeeds, 105 is stored, and the log has the warning. *)
Lemma successful_push_is_recorded_witness :
  (rate_limited (Demo.fresh time.Second Demo.upstream_above) false = false
   /\ reply ctx_live (Demo.fresh time.Second Demo.upstream_above) 100
      = (105, None))
  /\ result (TryUpdateGCSafePoint ctx_live 100 false)
            (Demo.fresh time.Second Demo.upstream_above) = None
  /\ gcManager.lastSafePointTs
       (mgr (after (TryUpdateGCSafePoint ctx_live 100 false)
               (Demo.fresh time.Second Demo.upstream_above)))
     = 105
  /\ logs (env (after (TryUpdateGCSafePoint ctx_live 100 false)
                  (Demo.fresh time.Second Demo.upstream_above)))
     = [mkLog Warn "update gc safe point failed, the gc safe point is larger than checkpointTs"].
Proof.
  pose proof (fresh_not_rate_limited _ Demo.upstream_above
                (proj1 sample_steps_nonnegative)) as Hrl.
  split; [split; [exact Hrl | reflexivity]|].
  destruct (successful_push_is_recorded ctx_live 100 false
              (Demo.fresh time.Second Demo.upstream_above) Hrl eq_refl)
    as (Hnil & Hsafe & _ & Hlog).
  split; [exact Hnil | split; [exact Hsafe|]].
  apply Hlog. reflexivity.
Defined.

(** C5: a call whose push fails keeps the safepoint of the manager, and
    one whose push succeeds stores the answer. *)
Lemma lastSafePointTs_written_only_by_successful_push_witness :
  gcManager.lastSafePointTs
    (mgr (after (TryUpdateGCSafePoint ctx_cancelled 300 true)
            (Demo.holding 100 Demo.pdClock_ok)))
  = 100
  /\ gcManager.lastSafePointTs
       (mgr (after (TryUpdateGCSafePoint ctx_live 300 true)
               (Demo.holding 100 Demo.pdClock_ok)))
     = 300.
Proof.
  destruct lastSafePointTs_written_only_by_successful_push
    as (Hkeep & Hwrite & _).
  split.
  - apply (Hkeep ctx_cancelled 300 true (Demo.holding 100 Demo.pdClock_ok)).
    right. discriminate.
  - apply (Hwrite ctx_live 300 true (Demo.holding 100 Demo.pdClock_ok));
      reflexivity.
Defined.

(** C8 fails as stated: on a manager built a second earlier, a push sent
    and then cancelled through the caller's context makes the call return
    [nil], which is no error at all. *)
Lemma cancelled_push_returns_nil :
  ctx_Err ctx_cancelled = Some context_Canceled
  /\ pushes (env (after (TryUpdateGCSafePoint ctx_cancelled 100 false)
                    (Demo.fresh time.Second Demo.upstream_ok)))
     = [mkPushCall "ticdc" 86400 100]
  /\ result (TryUpdateGCSafePoint ctx_cancelled 100 false)
            (Demo.fresh time.Second Demo.upstream_ok) = None
  /\ is_cancellation_error
       (result (TryUpdateGCSafePoint ctx_cancelled 100 false)
               (Demo.fresh time.Second Demo.upstream_ok)) = false.
Proof.
  repeat split; vm_compute; reflexivity.
Qed.

(** C8 as the code has it, on the same call, and on one made when the
    grace window is over. *)
Lemma cancelled_push_is_a_failed_push_witness :
  (rate_limited (Demo.fresh time.Second Demo.upstream_ok) false = false
   /\ ctx_Err ctx_cancelled = Some context_Canceled
   /\ Go.is_int64
        (time.Second
         * gcManager.gcTTL (mgr (Demo.fresh time.Second Demo.upstream_ok))))
  /\ result (TryUpdateGCSafePoint ctx_cancelled 100 false)
            (Demo.fresh time.Second Demo.upstream_ok) = None
  /\ result (TryUpdateGCSafePoint ctx_cancelled 100 false)
            (Demo.fresh (8 * time.Hour) Demo.upstream_ok)
     = Some (ErrUpdateServiceSafepointFailed_Wrap context_Canceled)
  /\ gcManager.lastSucceededTime
       (mgr (after (TryUpdateGCSafePoint ctx_cancelled 100 false)
               (Demo.fresh time.Second Demo.upstream_ok)))
     = gcManager.lastSucceededTime
         (mgr (Demo.fresh time.Second Demo.upstream_ok)).
Proof.
  destruct sample_steps_nonnegative as [Hsec Hhours].
  pose proof (fresh_not_rate_limited _ Demo.upstream_ok Hhours) as Hrl8.
  pose proof (fresh_not_rate_limited _ Demo.upstream_ok Hsec) as Hrl1.
  split; [split; [exact Hrl1 | split; [reflexivity | apply sample_ttl_fits]]|].
  destruct (cancelled_push_is_a_failed_push ctx_cancelled 100 false
              (Demo.fresh time.Second Demo.upstream_ok) context_Canceled
              Hrl1 eq_refl) as (_ & Hiff & Hsucc & _).
  destruct (cancelled_push_is_a_failed_push ctx_cancelled 100 false
              (Demo.fresh (8 * time.Hour) Demo.upstream_ok) context_Canceled
              Hrl8 eq_refl) as (_ & Hiff' & _).
  destruct (Hiff (sample_ttl_fits _ _)) as [Hnil _].
  destruct (Hiff' (sample_ttl_fits _ _)) as [_ Hfatal].
  split; [|split].
  - apply Hnil. vm_compute. reflexivity.
  - apply Hfatal. vm_compute. discriminate.
  - exact Hsucc.
Defined.

(** * Further properties of the manager *)

(** ** What a call leaves in place *)

Lemma evolves_refl (s : Sys) : evolves s s.
Proof.
  unfold evolves. repeat split; try reflexivity.
  exists []. split; [now rewrite app_nil_r | constructor].
Qed.

Lemma evolves_trans (s1 s2 s3 : Sys) :
  evolves s1 s2 -> evolves s2 s3 -> evolves s1 s3.
Proof.
  intros (Hc & Hu & Hi & Hid & Httl & Hr & new & Hp & Hall)
         (Hc' & Hu' & Hi' & Hid' & Httl' & Hr' & new' & Hp' & Hall').
  unfold evolves. repeat split; try congruence; try lia.
  exists (new ++ new'). split.
  - rewrite Hp', Hp. now rewrite app_assoc.
  - apply Forall_app. split; [exact Hall|].
    rewrite <- Hid, <- Httl. exact Hall'.
Qed.

Lemma evolves_one_request (s s' : Sys) (cp : Z) :
  clock (env s') = clock (env s) ->
  upstream (env s') = upstream (env s) ->
  gcSafepointUpdateInterval (env s') = gcSafepointUpdateInterval (env s) ->
  gcManager.gcServiceID (mgr s') = gcManager.gcServiceID (mgr s) ->
  gcManager.gcTTL (mgr s') = gcManager.gcTTL (mgr s) ->
  (reads (env s) <= reads (env s'))%nat ->
  pushes (env s') = pushes (env s) ++ [request s cp] ->
  evolves s s'.
Proof.
  intros. unfold evolves. repeat split; try assumption.
  exists [request s cp]. split; [assumption|].
  constructor; [split; reflexivity | constructor].
Qed.

Lemma TryUpdate_evolves (ctx : Context) (cp : Z) (force : bool) (s : Sys) :
  evolves s (after (TryUpdateGCSafePoint ctx cp force) s).
Proof.
  unfold after.
  destruct (TryUpdate_cases ctx cp force s)
    as [[_ H] | [[_ (err & _ & H)] | (_ & _ & H)]]; rewrite H; cbn [snd].
  - unfold evolves, skipped. cbn. repeat split; try lia.
    exists []. split; [now rewrite app_nil_r | constructor].
  - apply (evolves_one_request _ _ cp); cbn; try reflexivity; lia.
  - apply (evolves_one_request _ _ cp); cbn; try reflexivity; lia.
Qed.

Lemma CheckStale_after (ctx : Context) (id : ChangeFeedID) (cp : Z) (s : Sys) :
  after (CheckStaleCheckpointTs ctx id cp) s = s.
Proof. unfold after. now rewrite CheckStaleCheckpointTs_run. Qed.

(** [IgnoreFailedChangeFeed] consumes one answer of the PD clock and may
    log; it touches nothing else. *)
Lemma IgnoreFailed_after (cp : Z) (s : Sys) :
  mgr (after (IgnoreFailedChangeFeed cp) s) = mgr s
  /\ clock (env (after (IgnoreFailedChangeFeed cp) s)) = clock (env s)
  /\ reads (env (after (IgnoreFailedChangeFeed cp) s)) = reads (env s)
  /\ upstream (env (after (IgnoreFailedChangeFeed cp) s)) = upstream (env s)
  /\ pushes (env (after (IgnoreFailedChangeFeed cp) s)) = pushes (env s)
  /\ gcSafepointUpdateInterval (env (after (IgnoreFailedChangeFeed cp) s))
     = gcSafepointUpdateInterval (env s).
Proof.
  unfold after, run, IgnoreFailedChangeFeed. cbn.
  destruct (snd (pdClock (env s) (pdReads (env s)))); repeat split.
Qed.

Lemma IgnoreFailed_evolves (cp : Z) (s : Sys) :
  evolves s (after (IgnoreFailedChangeFeed cp) s).
Proof.
  destruct (IgnoreFailed_after cp s) as (Hm & Hc & Hr & Hu & Hp & Hi).
  unfold evolves. rewrite Hm, Hc, Hr, Hu, Hp, Hi.
  repeat split; try lia.
  exists []. split; [now rewrite app_nil_r | constructor].
Qed.

Lemma perform_after (c : Call) (s : Sys) :
  after (perform c) s
  = match c with
    | Call_TryUpdateGCSafePoint ctx cp force =>
        after (TryUpdateGCSafePoint ctx cp force) s
    | Call_CheckStaleCheckpointTs ctx id cp =>
        after (CheckStaleCheckpointTs ctx id cp) s
    | Call_IgnoreFailedChangeFeed cp =>
        after (IgnoreFailedChangeFeed cp) s
    end.
Proof.
  unfold after. destruct c; cbn [perform]; rewrite run_bind; reflexivity.
Qed.

Lemma perform_all_cons (c : Call) (cs : list Call) (s : Sys) :
  after (perform_all (c :: cs)) s
  = after (perform_all cs) (after (perform c) s).
Proof.
  unfold after. cbn [perform_all]. rewrite run_bind. reflexivity.
Qed.

Lemma perform_evolves (c : Call) (s : Sys) : evolves s (after (perform c) s).
Proof.
  rewrite perform_after. destruct c.
  - apply TryUpdate_evolves.
  - rewrite CheckStale_after. apply evolves_refl.
  - apply IgnoreFailed_evolves.
Qed.

Lemma perform_all_evolves (cs : list Call) :
  forall s : Sys, evolves s (after (perform_all cs) s).
Proof.
  induction cs as [|c cs IH]; intros s.
  - apply evolves_refl.
  - rewrite perform_all_cons.
    eapply evolves_trans; [apply perform_evolves | apply IH].
Qed.

(** ** A manager just built *)

Lemma NewManager_after (id : string) (s : Sys) :
  after (NewManager id) s
  = mkSys (gcManager.mk id (serverConfig_GcTTL (env s)) time.zero
                        (reading s 0) 0)
          (set_reads (1 + reads (env s)) (env s)).
Proof. reflexivity. Qed.

(** X1.  The first call of [TryUpdateGCSafePoint] on a manager just built
    sends a push even when it is not forced, under the identity given to
    [NewManager] and the TTL of the server configuration: the zero
    [lastUpdatedTime] is further back than any interval.  The clock has to
    read a date after the year 293 and the interval to be a [Duration]. *)
Theorem first_call_of_new_manager_pushes
    (id : string) (ctx : Context) (cp : Z) (s : Sys) :
  time.zero + time.maxDuration <= reading s 1 ->
  gcSafepointUpdateInterval (env s) <= time.maxDuration ->
  pushes (env (after (_ <- NewManager id ;;
                      TryUpdateGCSafePoint ctx cp false) s))
  = pushes (env s) ++ [mkPushCall id (serverConfig_GcTTL (env s)) cp].
Proof.
  intros Hclock Hint.
  pose proof (NewManager_first_call_not_rate_limited id s Hclock Hint) as Hrl.
  unfold after at 1. rewrite run_bind. fold (after (NewManager id) s).
  destruct (TryUpdate_attempt_frame ctx cp false _ Hrl) as (_ & _ & Hp & _).
  unfold after at 1 in Hp. rewrite Hp. reflexivity.
Qed.

Lemma perform_without_success_keeps_safepoint (c : Call) (s : Sys) :
  no_push_succeeded [c] s = true ->
  gcManager.lastSafePointTs (mgr (after (perform c) s))
  = gcManager.lastSafePointTs (mgr s).
Proof.
  cbn [no_push_succeeded]. rewrite andb_true_r. intros Hno.
  rewrite perform_after.
  destruct c as [ctx cp force | ctx id cp | cp].
  - unfold after.
    destruct (TryUpdate_cases ctx cp force s)
      as [[_ H] | [[_ (err & _ & H)] | (Hrl & Hok & _)]].
    + rewrite H. reflexivity.
    + rewrite H. reflexivity.
    + rewrite Hrl, Hok in Hno. discriminate.
  - now rewrite CheckStale_after.
  - now destruct (IgnoreFailed_after cp s) as (-> & _).
Qed.

Lemma run_without_success_keeps_safepoint (cs : list Call) :
  forall s : Sys,
    no_push_succeeded cs s = true ->
    gcManager.lastSafePointTs (mgr (after (perform_all cs) s))
    = gcManager.lastSafePointTs (mgr s).
Proof.
  induction cs as [|c cs IH]; intros s Hno.
  - reflexivity.
  - cbn [no_push_succeeded] in Hno. apply andb_true_iff in Hno.
    destruct Hno as [Hhead Hrest].
    rewrite perform_all_cons. fold (after (perform c) s) in Hrest.
    rewrite (IH _ Hrest).
    apply perform_without_success_keeps_safepoint.
    cbn [no_push_succeeded]. now rewrite Hhead.
Qed.

(** X2.  A manager just built holds safepoint 0 and so refuses no
    checkpoint until a push has succeeded: after [NewManager] and any run
    of calls in which every [TryUpdateGCSafePoint] was skipped or had its
    push fail, [CheckStaleCheckpointTs] returns [nil] for every
    checkpoint, however old. *)
Theorem new_manager_accepts_every_checkpoint
    (id : string) (cs : list Call) (ctx : Context) (feed : ChangeFeedID)
    (cp : Z) (s : Sys) :
  no_push_succeeded cs (after (NewManager id) s) = true ->
  result (CheckStaleCheckpointTs ctx feed cp)
         (after (perform_all cs) (after (NewManager id) s)) = None.
Proof.
  intros Hno. unfold result.
  rewrite CheckStaleCheckpointTs_run. cbn [fst].
  rewrite (run_without_success_keeps_safepoint cs _ Hno).
  rewrite NewManager_after. cbn [mgr gcManager.lastSafePointTs].
  unfold Go.uint64_sub, Go.uint64_wrap.
  pose proof (Z.mod_pos_bound (cp - 1) (2 ^ 64) ltac:(lia)) as Hb.
  destruct (Z.ltb_spec ((cp - 1) mod 2 ^ 64) 0); [lia | reflexivity].
Qed.

(** ** Checks after a push *)

(** X3.  Once a push has succeeded with answer [actual], the manager
    accepts a checkpoint exactly when it is 0 or strictly above [actual]:
    a changefeed that resumes at the safepoint itself is refused. *)
Theorem check_after_successful_push
    (ctx ctx' : Context) (feed : ChangeFeedID) (cp cp' : Z) (force : bool)
    (s : Sys) :
  rate_limited s force = false ->
  snd (reply ctx s cp) = None ->
  Go.is_uint64 (fst (reply ctx s cp)) ->
  Go.is_uint64 cp' ->
  (result (CheckStaleCheckpointTs ctx' feed cp')
          (after (TryUpdateGCSafePoint ctx cp force) s) = None
   <-> cp' = 0 \/ fst (reply ctx s cp) < cp').
Proof.
  unfold Go.is_uint64. intros Hrl Hok Ha Hcp.
  unfold result, after.
  rewrite (TryUpdate_push_succeeded ctx cp force s Hrl Hok).
  rewrite CheckStaleCheckpointTs_run. cbn [fst snd].
  change (gcManager.lastSafePointTs
            (mgr (push_succeeded s cp (fst (reply ctx s cp)))))
    with (fst (reply ctx s cp)).
  set (actual := fst (reply ctx s cp)) in *.
  destruct (Z.eq_dec cp' 0) as [-> | Hnz].
  - rewrite uint64_sub_zero_one.
    destruct (Z.ltb_spec (2 ^ 64 - 1) actual); [lia|].
    split; [intros _; now left | reflexivity].
  - rewrite uint64_sub_exact by lia.
    destruct (Z.ltb_spec (cp' - 1) actual).
    + split; [discriminate | lia].
    + split; [intros _; right; lia | reflexivity].
Qed.

(** ** What [TryUpdateGCSafePoint] returns *)

(** X4.  [TryUpdateGCSafePoint] returns an error in one situation only:
    the push was sent, it failed, and the grace window was over when the
    clock was read after the failure.  The error is then the upstream's,
    wrapped; a skipped call and a call whose push succeeded return [nil],
    and no call returns the "snapshot lost" error. *)
Theorem TryUpdate_error_iff_failed_push_past_grace
    (ctx : Context) (cp : Z) (force : bool) (s : Sys) (e : error) :
  result (TryUpdateGCSafePoint ctx cp force) s = Some e
  <-> rate_limited s force = false
      /\ grace_exceeded s = true
      /\ exists err, snd (reply ctx s cp) = Some err
                     /\ e = ErrUpdateServiceSafepointFailed_Wrap err.
Proof.
  unfold result.
  destruct (TryUpdate_cases ctx cp force s)
    as [[Hrl H] | [[Hrl (err & Herr & H)] | (Hrl & Hok & H)]];
    rewrite H; cbn [fst].
  - split; [discriminate | intros (Hrl' & _); congruence].
  - destruct (grace_exceeded s).
    + split.
      * intros [= <-].
        split; [exact Hrl | split; [reflexivity | now exists err]].
      * intros (_ & _ & err' & Herr' & ->). congruence.
    + split; [discriminate | intros (_ & Hg & _); discriminate].
  - split; [discriminate|].
    intros (_ & _ & err & Herr & _). congruence.
Qed.

(** ** The spacing of non-forced pushes *)

(** A non-forced call either is skipped, or sends one request; in the
    latter case the clock it read first was an interval or more past the
    previous attempt. *)
Lemma nonforced_call_step (ctx : Context) (cp : Z) (s : Sys) :
  0 < gcSafepointUpdateInterval (env s) <= time.maxDuration ->
  (pushes (env (after (TryUpdateGCSafePoint ctx cp false) s)) = pushes (env s)
   /\ mgr (after (TryUpdateGCSafePoint ctx cp false) s) = mgr s
   /\ reads (env (after (TryUpdateGCSafePoint ctx cp false) s))
      = (1 + reads (env s))%nat)
  \/ (pushes (env (after (TryUpdateGCSafePoint ctx cp false) s))
      = pushes (env s) ++ [request s cp]
      /\ gcManager.lastUpdatedTime
           (mgr (after (TryUpdateGCSafePoint ctx cp false) s))
         = reading s 1
      /\ reads (env (after (TryUpdateGCSafePoint ctx cp false) s))
         = (3 + reads (env s))%nat
      /\ gcManager.lastUpdatedTime (mgr s)
         + gcSafepointUpdateInterval (env s) <= reading s 0).
Proof.
  intros Hint.
  destruct (rate_limited s false) eqn:Hrl.
  - left. unfold after. rewrite (TryUpdate_skip ctx cp false s Hrl).
    repeat split.
  - right.
    destruct (TryUpdate_attempt_frame ctx cp false s Hrl)
      as (Hupd & Hreads & Hpushes & _).
    repeat split; try assumption.
    apply not_rate_limited_iff in Hrl.
    assert (Hd : time.minDuration
                 < gcSafepointUpdateInterval (env s) <= time.maxDuration).
    { split; [|apply Hint].
      change time.minDuration with (-9223372036854775808). lia. }
    pose proof (Sub_lt_iff (reading s 0) (gcManager.lastUpdatedTime (mgr s))
                  _ Hd) as Hsub.
    destruct (Z.lt_ge_cases
                (reading s 0 - gcManager.lastUpdatedTime (mgr s))
                (gcSafepointUpdateInterval (env s))) as [Hlt|Hge]; [|lia].
    apply Hsub in Hlt. lia.
Qed.

Lemma owner_ticks_cons_after (ctx : Context) (cp : Z) (rest : list Z)
    (s : Sys) :
  after (owner_ticks ctx (cp :: rest)) s
  = after (owner_ticks ctx rest) (after (TryUpdateGCSafePoint ctx cp false) s).
Proof.
  unfold after. cbn [owner_ticks]. rewrite run_bind, run_bind. reflexivity.
Qed.

(** Over a run of non-forced ticks under a monotone clock, every request
    moves [lastUpdatedTime] forward by an interval or more, and the first
    of them dates it at or after the first reading of the run. *)
Lemma owner_ticks_spacing (ctx : Context) (cps : list Z) :
  forall s : Sys,
    clock_monotone (env s) ->
    0 < gcSafepointUpdateInterval (env s) <= time.maxDuration ->
    (reads (env s) + List.length cps
     <= reads (env (after (owner_ticks ctx cps) s)))%nat
    /\ 0 <= pushes_sent s (after (owner_ticks ctx cps) s)
    /\ (pushes_sent s (after (owner_ticks ctx cps) s) = 0 ->
        gcManager.lastUpdatedTime (mgr (after (owner_ticks ctx cps) s))
        = gcManager.lastUpdatedTime (mgr s))
    /\ gcManager.lastUpdatedTime (mgr s)
       + pushes_sent s (after (owner_ticks ctx cps) s)
         * gcSafepointUpdateInterval (env s)
       <= gcManager.lastUpdatedTime (mgr (after (owner_ticks ctx cps) s))
    /\ (0 < pushes_sent s (after (owner_ticks ctx cps) s) ->
        reading s 0
        + (pushes_sent s (after (owner_ticks ctx cps) s) - 1)
          * gcSafepointUpdateInterval (env s)
        <= gcManager.lastUpdatedTime (mgr (after (owner_ticks ctx cps) s))
        /\ exists k : nat,
             (reads (env s) <= k
              < reads (env (after (owner_ticks ctx cps) s)))%nat
             /\ gcManager.lastUpdatedTime
                  (mgr (after (owner_ticks ctx cps) s))
                = clock (env s) k).
Proof.
  induction cps as [|cp rest IH]; intros s Hmono Hint.
  - change (after (owner_ticks ctx []) s) with s.
    unfold pushes_sent. cbn [List.length].
    repeat split; try lia.
  - rewrite owner_ticks_cons_after.
    set (s1 := after (TryUpdateGCSafePoint ctx cp false) s) in *.
    destruct (TryUpdate_evolves ctx cp false s)
      as (Hc & _ & Hi & _ & _ & _ & _).
    fold s1 in Hc, Hi.
    assert (Hmono1 : clock_monotone (env s1)).
    { unfold clock_monotone. rewrite Hc. exact Hmono. }
    assert (Hint1 : 0 < gcSafepointUpdateInterval (env s1)
                    <= time.maxDuration) by (rewrite Hi; exact Hint).
    specialize (IH s1 Hmono1 Hint1).
    set (s' := after (owner_ticks ctx rest) s1) in *.
    destruct IH as (Hreads & Hn & Hzero & Hlow & Hpos).
    rewrite Hi in Hlow, Hpos.
    set (I := gcSafepointUpdateInterval (env s)) in *.
    unfold pushes_sent in *. cbn [List.length].
    destruct (nonforced_call_step ctx cp s Hint)
      as [(Hp & Hm & Hr) | (Hp & Hu & Hr & Hgap)]; fold s1 in Hp, Hr.
    + (* the head call is skipped *)
      fold s1 in Hm. rewrite Hp in *. rewrite Hm in *.
      assert (Hnext : reading s 0 <= reading s1 0).
      { unfold reading. rewrite Hc, Hr. apply Hmono. lia. }
      split; [lia|]. split; [lia|]. split; [exact Hzero|].
      split; [exact Hlow|].
      intros Hgt. destruct (Hpos Hgt) as (Hfirst & k & Hk & Hat).
      split; [lia|]. exists k. split; [lia|]. now rewrite <- Hc.
    + (* the head call sends a request *)
      fold s1 in Hu.
      rewrite Hp, length_app in *. cbn [List.length] in *.
      rewrite Hu in *.
      set (n := Z.of_nat (List.length (pushes (env s')))) in *.
      set (m := Z.of_nat (List.length (pushes (env s)))) in *.
      assert (Hm1 : Z.of_nat (List.length (pushes (env s)) + 1) = m + 1)
        by (unfold m; lia).
      rewrite Hm1 in *.
      assert (Hone : reading s 0 <= reading s 1).
      { unfold reading. apply Hmono. lia. }
      assert (Heq : (n - m) * I = (n - (m + 1)) * I + I) by ring.
      assert (Heq' : (n - m - 1) * I = (n - (m + 1)) * I) by ring.
      split; [lia|]. split; [lia|]. split; [lia|].
      split; [lia|].
      intros _. split; [lia|].
      destruct (Z.eq_dec (n - (m + 1)) 0) as [Hnone | Hsome].
      * exists (1 + reads (env s))%nat. split; [lia|].
        rewrite (Hzero Hnone). reflexivity.
      * destruct Hpos as (_ & k & Hk & Hat); [lia|].
        exists k. split; [lia|]. now rewrite <- Hc.
Qed.

(** X5.  Rate limiting over a run: under a monotone clock and a positive
    interval, a run of non-forced calls sends at most one request per
    interval of the time the run spans, plus one.  The span is counted
    from the first to the last clock reading of the run. *)
Theorem nonforced_pushes_bounded_by_span
    (ctx : Context) (cps : list Z) (s : Sys) :
  clock_monotone (env s) ->
  0 < gcSafepointUpdateInterval (env s) <= time.maxDuration ->
  cps <> [] ->
  pushes_sent s (after (owner_ticks ctx cps) s)
  <= (clock (env s) (reads (env (after (owner_ticks ctx cps) s)) - 1)
      - reading s 0)
     / gcSafepointUpdateInterval (env s)
     + 1.
Proof.
  intros Hmono Hint Hne.
  destruct (owner_ticks_spacing ctx cps s Hmono Hint)
    as (Hreads & Hn & _ & _ & Hpos).
  set (s' := after (owner_ticks ctx cps) s) in *.
  set (I := gcSafepointUpdateInterval (env s)) in *.
  assert (Hlen : (0 < List.length cps)%nat).
  { destruct cps; [now elim Hne | cbn; lia]. }
  assert (Hspan : 0 <= clock (env s) (reads (env s') - 1) - reading s 0).
  { unfold reading. cbn [Nat.add].
    pose proof (Hmono (reads (env s)) (reads (env s') - 1)%nat). lia. }
  destruct (Z.eq_dec (pushes_sent s s') 0) as [Hz | Hnz].
  - rewrite Hz.
    pose proof (Z.div_pos _ I Hspan ltac:(lia)). lia.
  - destruct Hpos as (Hfirst & k & Hk & Hat); [lia|].
    assert (Hlast : clock (env s) k <= clock (env s) (reads (env s') - 1)).
    { apply Hmono. lia. }
    assert (Hq : pushes_sent s s' - 1
                 <= (clock (env s) (reads (env s') - 1) - reading s 0) / I).
    { apply Z.div_le_lower_bound; [lia|].
      rewrite Z.mul_comm. lia. }
    lia.
Qed.

(** ** Retention of failed changefeeds, continued *)

Lemma GetTimeFromTS_monotone (ts ts' : Z) :
  Go.is_uint64 ts -> Go.is_uint64 ts' -> ts <= ts' ->
  oracle.GetTimeFromTS ts <= oracle.GetTimeFromTS ts'.
Proof.
  intros Hu Hu' Hle. rewrite !GetTimeFromTS_millis by assumption.
  change time.Millisecond with 1000000.
  pose proof (Z.div_le_mono ts ts' (2 ^ 18) ltac:(lia) Hle). lia.
Qed.

Lemma retention_window_is_a_duration :
  time.minDuration <= gcTTL < time.maxDuration.
Proof. vm_compute. split; [discriminate | reflexivity]. Qed.

(** X6.  The retention policy is monotone in the checkpoint: against the
    same reading of the PD clock, a failed changefeed whose checkpoint is
    older than one that is ignored is ignored too. *)
Theorem IgnoreFailedChangeFeed_monotone (cp cp' : Z) (s : Sys) :
  1 <= cp' <= cp ->
  cp < 2 ^ 64 ->
  result (IgnoreFailedChangeFeed cp) s = true ->
  result (IgnoreFailedChangeFeed cp') s = true.
Proof.
  intros Hcp' Hcp. rewrite !IgnoreFailedChangeFeed_result.
  destruct (snd (pdClock (env s) (pdReads (env s)))); [discriminate|].
  set (pdTime := fst (pdClock (env s) (pdReads (env s)))).
  intros Hold. apply Z.gtb_gt in Hold. apply Z.gtb_gt.
  apply (Sub_gt_iff _ _ _ retention_window_is_a_duration) in Hold.
  apply (Sub_gt_iff _ _ _ retention_window_is_a_duration).
  rewrite uint64_sub_exact in * by lia.
  pose proof (GetTimeFromTS_monotone (cp' - 1) (cp - 1)) as Hmono.
  unfold Go.is_uint64 in Hmono. lia.
Qed.

(** X7.  Checkpoint 0 is never ignored while the PD clock reads a date
    before the year 4199: [0 - 1] wraps to the last timestamp there is,
    whose instant lies that far ahead, so the changefeed looks younger
    than any retention window. *)
Theorem IgnoreFailedChangeFeed_zero_not_ignored (s : Sys) :
  fst (pdClock (env s) (pdReads (env s)))
  <= (2 ^ 46 - 1) * time.Millisecond + 24 * time.Hour ->
  result (IgnoreFailedChangeFeed 0) s = false.
Proof.
  intros Hnow. rewrite IgnoreFailedChangeFeed_result.
  destruct (snd (pdClock (env s) (pdReads (env s)))); [reflexivity|].
  set (pdTime := fst (pdClock (env s) (pdReads (env s)))) in *.
  destruct (Z.gtb_spec
              (time.Sub pdTime (oracle.GetTimeFromTS (Go.uint64_sub 0 1)))
              gcTTL) as [Hgt|]; [|reflexivity].
  apply Z.lt_gt in Hgt.
  apply (Sub_gt_iff _ _ _ retention_window_is_a_duration) in Hgt.
  change (oracle.GetTimeFromTS (Go.uint64_sub 0 1))
    with 70368744177663000000 in Hgt.
  change gcTTL with 86400000000000 in Hgt.
  change ((2 ^ 46 - 1) * time.Millisecond + 24 * time.Hour)
    with 70368830577663000000 in Hnow.
  lia.
Qed.

(** ** Invariants over any run of calls *)

(** X8.  Whatever the owner calls, and in whatever order, the identity and
    the TTL of the manager stay those it was built with, requests already
    sent are never withdrawn or altered, and every request added carries
    that identity and that TTL. *)
Theorem identity_and_ttl_never_change (cs : list Call) (s : Sys) :
  gcManager.gcServiceID (mgr (after (perform_all cs) s))
  = gcManager.gcServiceID (mgr s)
  /\ gcManager.gcTTL (mgr (after (perform_all cs) s))
     = gcManager.gcTTL (mgr s)
  /\ exists new : list PushCall,
       pushes (env (after (perform_all cs) s)) = pushes (env s) ++ new
       /\ forall c, In c new ->
                    push_serviceID c = gcManager.gcServiceID (mgr s)
                    /\ push_TTL c = gcManager.gcTTL (mgr s).
Proof.
  destruct (perform_all_evolves cs s)
    as (_ & _ & _ & Hid & Httl & _ & new & Hp & Hall).
  split; [exact Hid|]. split; [exact Httl|].
  exists new. split; [exact Hp|].
  apply Forall_forall. exact Hall.
Qed.

Lemma reading_monotone (s : Sys) (i j : nat) :
  clock_monotone (env s) -> (i <= j)%nat -> reading s i <= reading s j.
Proof. intros Hmono Hij. unfold reading. apply Hmono. lia. Qed.

Lemma perform_keeps_times (c : Call) (s : Sys) :
  clock_monotone (env s) ->
  times_in_past s ->
  times_in_past (after (perform c) s)
  /\ gcManager.lastUpdatedTime (mgr s)
     <= gcManager.lastUpdatedTime (mgr (after (perform c) s))
  /\ gcManager.lastSucceededTime (mgr s)
     <= gcManager.lastSucceededTime (mgr (after (perform c) s)).
Proof.
  intros Hmono [Hupd Hsucc]. rewrite perform_after.
  pose proof (reading_monotone s 0 1 Hmono ltac:(lia)) as H01.
  pose proof (reading_monotone s 1 2 Hmono ltac:(lia)) as H12.
  pose proof (reading_monotone s 2 3 Hmono ltac:(lia)) as H23.
  destruct c as [ctx cp force | ctx id cp | cp].
  - unfold after.
    destruct (TryUpdate_cases ctx cp force s)
      as [[_ H] | [[_ (err & _ & H)] | (_ & _ & H)]]; rewrite H; cbn [snd];
      clear H; unfold times_in_past in *; cbn; unfold reading in *;
      cbn in *; lia.
  - rewrite CheckStale_after. unfold times_in_past. lia.
  - destruct (IgnoreFailed_after cp s) as (Hm & Hc & Hr & _).
    unfold times_in_past, reading in *. rewrite Hm, Hc, Hr. lia.
Qed.

(** X9.  Under a monotone clock the instants the manager stores are
    never ahead of the clock and never move back: if [lastUpdatedTime] and
    [lastSucceededTime] are not after the next clock reading, then after
    any run of calls they still are not, and neither is earlier than it
    was. *)
Theorem stored_times_stay_in_past_and_never_decrease (cs : list Call) :
  forall s : Sys,
    clock_monotone (env s) ->
    times_in_past s ->
    times_in_past (after (perform_all cs) s)
    /\ gcManager.lastUpdatedTime (mgr s)
       <= gcManager.lastUpdatedTime (mgr (after (perform_all cs) s))
    /\ gcManager.lastSucceededTime (mgr s)
       <= gcManager.lastSucceededTime (mgr (after (perform_all cs) s)).
Proof.
  induction cs as [|c cs IH]; intros s Hmono Hpast.
  - change (after (perform_all []) s) with s. repeat split; try lia;
      apply Hpast.
  - rewrite perform_all_cons.
    destruct (perform_keeps_times c s Hmono Hpast) as (Hpast1 & Hu1 & Hs1).
    destruct (perform_evolves c s) as (Hc & _).
    assert (Hmono1 : clock_monotone (env (after (perform c) s))).
    { unfold clock_monotone. rewrite Hc. exact Hmono. }
    destruct (IH _ Hmono1 Hpast1) as (Hpast' & Hu' & Hs').
    split; [exact Hpast'|]. split; lia.
Qed.

(** ** The grace window *)

Lemma failed_reply_under_failing_upstream (ctx : Context) (s : Sys) (cp : Z) :
  upstream_always_fails (env s) -> snd (reply ctx s cp) <> None.
Proof.
  intros Hdown. unfold reply, push_reply.
  destruct (ctx_Err ctx); [discriminate | apply Hdown].
Qed.

Lemma perform_under_failing_upstream (c : Call) (s : Sys) :
  upstream_always_fails (env s) ->
  gcManager.lastSucceededTime (mgr (after (perform c) s))
  = gcManager.lastSucceededTime (mgr s)
  /\ gcManager.lastSafePointTs (mgr (after (perform c) s))
     = gcManager.lastSafePointTs (mgr s).
Proof.
  intros Hdown. rewrite perform_after.
  destruct c as [ctx cp force | ctx id cp | cp].
  - unfold after.
    destruct (TryUpdate_cases ctx cp force s)
      as [[_ H] | [[_ (err & _ & H)] | (_ & Hok & _)]].
    + rewrite H. split; reflexivity.
    + rewrite H. split; reflexivity.
    + now elim (failed_reply_under_failing_upstream ctx s cp Hdown).
  - rewrite CheckStale_after. split; reflexivity.
  - destruct (IgnoreFailed_after cp s) as (-> & _). split; reflexivity.
Qed.

Lemma perform_all_under_failing_upstream (cs : list Call) :
  forall s : Sys,
    upstream_always_fails (env s) ->
    gcManager.lastSucceededTime (mgr (after (perform_all cs) s))
    = gcManager.lastSucceededTime (mgr s)
    /\ gcManager.lastSafePointTs (mgr (after (perform_all cs) s))
       = gcManager.lastSafePointTs (mgr s).
Proof.
  induction cs as [|c cs IH]; intros s Hdown.
  - split; reflexivity.
  - rewrite perform_all_cons.
    destruct (perform_under_failing_upstream c s Hdown) as [Hs Hp].
    destruct (perform_evolves c s) as (_ & Hu & _).
    assert (Hdown1 : upstream_always_fails (env (after (perform c) s))).
    { unfold upstream_always_fails. rewrite Hu. exact Hdown. }
    destruct (IH _ Hdown1) as [Hs' Hp']. split; congruence.
Qed.

(** X10.  While the upstream keeps failing, whatever the owner calls
    leaves [lastSucceededTime] and [lastSafePointTs] where they were, so
    every failure is measured against the same deadline: a later call that
    sends a push returns the fatal error exactly when the clock it reads
    after the failure is at or past the original [lastSucceededTime] plus
    the TTL. *)
Theorem outage_keeps_one_deadline
    (cs : list Call) (ctx : Context) (cp : Z) (force : bool) (s : Sys) :
  upstream_always_fails (env s) ->
  Go.is_int64 (time.Second * gcManager.gcTTL (mgr s)) ->
  rate_limited (after (perform_all cs) s) force = false ->
  gcManager.lastSucceededTime (mgr (after (perform_all cs) s))
  = gcManager.lastSucceededTime (mgr s)
  /\ gcManager.lastSafePointTs (mgr (after (perform_all cs) s))
     = gcManager.lastSafePointTs (mgr s)
  /\ (result (TryUpdateGCSafePoint ctx cp force) (after (perform_all cs) s)
      <> None
      <-> gcManager.lastSucceededTime (mgr s)
          + gcManager.gcTTL (mgr s) * time.Second
          <= reading (after (perform_all cs) s) 2).
Proof.
  intros Hdown Httl Hrl.
  destruct (perform_all_under_failing_upstream cs s Hdown) as [Hsucc Hsafe].
  destruct (perform_all_evolves cs s) as (_ & Hu & _ & _ & Hsame & _).
  set (s' := after (perform_all cs) s) in *.
  split; [exact Hsucc|]. split; [exact Hsafe|].
  assert (Hdown' : upstream_always_fails (env s')).
  { unfold upstream_always_fails. rewrite Hu. exact Hdown. }
  destruct (snd (reply ctx s' cp)) as [err|] eqn:Herr;
    [|now elim (failed_reply_under_failing_upstream ctx s' cp Hdown')].
  unfold result.
  rewrite (TryUpdate_push_failed ctx cp force s' err Hrl Herr). cbn [fst].
  rewrite <- Hsucc, <- Hsame.
  rewrite <- Hsame in Httl.
  rewrite <- (grace_exceeded_iff s' Httl).
  destruct (grace_exceeded s'); split; congruence.
Qed.

(** X11.  A success restarts the grace window.  With a TTL whose count
    of nanoseconds fits a [Duration], after a call whose push succeeded, a
    call whose push fails returns [nil] exactly when the
    clock it reads after the failure is strictly before the instant the
    successful call read after its push, plus the TTL; how long ago the
    success before that was has no part in it. *)
Theorem success_restarts_grace_window
    (ctx ctx' : Context) (cp cp' : Z) (force force' : bool) (s : Sys)
    (err : error) :
  rate_limited s force = false ->
  snd (reply ctx s cp) = None ->
  Go.is_int64 (time.Second * gcManager.gcTTL (mgr s)) ->
  rate_limited (after (TryUpdateGCSafePoint ctx cp force) s) force' = false ->
  snd (reply ctx' (after (TryUpdateGCSafePoint ctx cp force) s) cp')
  = Some err ->
  (result (TryUpdateGCSafePoint ctx' cp' force')
          (after (TryUpdateGCSafePoint ctx cp force) s) = None
   <-> reading (after (TryUpdateGCSafePoint ctx cp force) s) 2
       < reading s 2 + gcManager.gcTTL (mgr s) * time.Second).
Proof.
  intros Hrl Hok Httl.
  unfold after at 1 2 3 4.
  rewrite (TryUpdate_push_succeeded ctx cp force s Hrl Hok). cbn [snd].
  set (s1 := push_succeeded s cp (fst (reply ctx s cp))).
  intros Hrl' Herr. unfold result.
  rewrite (TryUpdate_push_failed ctx' cp' force' s1 err Hrl' Herr).
  cbn [fst].
  assert (Httl1 : Go.is_int64 (time.Second * gcManager.gcTTL (mgr s1)))
    by exact Httl.
  pose proof (grace_exceeded_iff s1 Httl1) as Hiff.
  change (gcManager.lastSucceededTime (mgr s1)) with (reading s 2) in Hiff.
  change (gcManager.gcTTL (mgr s1)) with (gcManager.gcTTL (mgr s)) in Hiff.
  destruct (grace_exceeded s1).
  - split; [discriminate|]. intros Hlt.
    pose proof (proj1 Hiff eq_refl). lia.
  - split; [intros _ | reflexivity].
    destruct (Z.lt_ge_cases (reading s1 2)
                (reading s 2 + gcManager.gcTTL (mgr s) * time.Second))
      as [Hlt|Hge]; [exact Hlt|].
    apply Z.ge_le_iff in Hge. apply Z.ge_le in Hge.
    now pose proof (proj2 Hiff Hge).
Qed.

(** ** Where the stored safepoint comes from *)

Lemma successful_reply_is_the_upstream's (ctx : Context) (s : Sys) (cp : Z) :
  snd (reply ctx s cp) = None ->
  upstream (env s) (List.length (pushes (env s))) (request s cp)
  = (fst (reply ctx s cp), None).
Proof.
  unfold reply, push_reply.
  destruct (ctx_Err ctx); [discriminate|].
  destruct (upstream (env s) (List.length (pushes (env s))) (request s cp))
    as [a e].
  cbn. now intros ->.
Qed.

Lemma perform_safepoint_provenance (c : Call) (s : Sys) :
  gcManager.lastSafePointTs (mgr (after (perform c) s))
  = gcManager.lastSafePointTs (mgr s)
  \/ exists call : PushCall,
       pushes (env (after (perform c) s)) = pushes (env s) ++ [call]
       /\ upstream (env s) (List.length (pushes (env s))) call
          = (gcManager.lastSafePointTs (mgr (after (perform c) s)), None).
Proof.
  rewrite perform_after.
  destruct c as [ctx cp force | ctx id cp | cp].
  - unfold after.
    destruct (TryUpdate_cases ctx cp force s)
      as [[_ H] | [[_ (err & _ & H)] | (_ & Hok & H)]]; rewrite H; cbn [snd].
    + now left.
    + now left.
    + right. exists (request s cp). split; [reflexivity|].
      now apply successful_reply_is_the_upstream's.
  - rewrite CheckStale_after. now left.
  - destruct (IgnoreFailed_after cp s) as (-> & _). now left.
Qed.

(** X12.  The stored safepoint is never made up: after any run of calls,
    [lastSafePointTs] is either what it was before the run or the answer
    the upstream gave, without error, to one of the requests sent during
    the run. *)
Theorem stored_safepoint_is_an_upstream_answer (cs : list Call) :
  forall s : Sys,
    gcManager.lastSafePointTs (mgr (after (perform_all cs) s))
    = gcManager.lastSafePointTs (mgr s)
    \/ exists (k : nat) (call : PushCall),
         (List.length (pushes (env s)) <= k)%nat
         /\ nth_error (pushes (env (after (perform_all cs) s))) k = Some call
         /\ upstream (env s) k call
            = (gcManager.lastSafePointTs (mgr (after (perform_all cs) s)),
               None).
Proof.
  induction cs as [|c cs IH]; intros s.
  - now left.
  - rewrite perform_all_cons.
    set (s1 := after (perform c) s).
    destruct (perform_evolves c s)
      as (_ & Hu & _ & _ & _ & _ & new1 & Hp1 & _).
    fold s1 in Hu, Hp1.
    destruct (perform_all_evolves cs s1)
      as (_ & _ & _ & _ & _ & _ & new & Hp & _).
    destruct (IH s1) as [Hsame | (k & call & Hk & Hnth & Hans)].
    + destruct (perform_safepoint_provenance c s)
        as [Hsame1 | (call & Hpush & Hans)].
      * fold s1 in Hsame1. left. congruence.
      * fold s1 in Hpush, Hans. right. exists (List.length (pushes (env s))), call.
        split; [lia|]. split; [|congruence].
        rewrite Hp, Hpush, <- app_assoc.
        rewrite nth_error_app2 by lia. now rewrite Nat.sub_diag.
    + right. exists k, call. split.
      * rewrite Hp1, length_app in Hk. lia.
      * split; [exact Hnth | now rewrite <- Hu].
Qed.

(** * The further properties on the sample worlds *)

Lemma clock_every_monotone (step : time.Duration)
    (up : nat -> PushCall -> Z * option error)
    (pd : nat -> time.Time * option error) :
  0 <= step -> clock_monotone (Demo.world step up pd).
Proof.
  intros Hstep i j Hij. unfold Demo.world, Demo.clock_every. cbn [clock].
  apply Z.add_le_mono_l, Z.mul_le_mono_nonneg_r; lia.
Qed.

(** X1 on a blank process whose clock starts at [T0]. *)
Lemma first_call_of_new_manager_pushes_witness :
  (time.zero + time.maxDuration
   <= reading (mkSys Demo.blank
                 (Demo.world time.Second Demo.upstream_ok Demo.pdClock_ok)) 1
   /\ gcSafepointUpdateInterval
        (Demo.world time.Second Demo.upstream_ok Demo.pdClock_ok)
      <= time.maxDuration)
  /\ pushes (env (after (_ <- NewManager "ticdc" ;;
                         TryUpdateGCSafePoint ctx_live 100 false)
                    (mkSys Demo.blank
                       (Demo.world time.Second Demo.upstream_ok
                          Demo.pdClock_ok))))
     = [mkPushCall "ticdc" 86400 100].
Proof.
  assert (Hclock :
    time.zero + time.maxDuration
    <= reading (mkSys Demo.blank
                  (Demo.world time.Second Demo.upstream_ok Demo.pdClock_ok)) 1)
    by (vm_compute; discriminate).
  assert (Hint :
    gcSafepointUpdateInterval
      (Demo.world time.Second Demo.upstream_ok Demo.pdClock_ok)
    <= time.maxDuration) by (vm_compute; discriminate).
  split; [split; [exact Hclock | exact Hint]|].
  exact (first_call_of_new_manager_pushes "ticdc" ctx_live 100
           (mkSys Demo.blank
              (Demo.world time.Second Demo.upstream_ok Demo.pdClock_ok))
           Hclock Hint).
Defined.

(** X2 on a manager built in front of an upstream that is down: after a
    tick whose push fails, a tick that is skipped, a forced push that is
    cancelled and a retention test, checkpoint 1 is still accepted. *)
Lemma new_manager_accepts_every_checkpoint_witness :
  no_push_succeeded
    [Call_TryUpdateGCSafePoint ctx_live 100 false;
     Call_TryUpdateGCSafePoint ctx_live 110 false;
     Call_TryUpdateGCSafePoint ctx_cancelled 120 true;
     Call_IgnoreFailedChangeFeed 5]
    (after (NewManager "ticdc")
       (mkSys Demo.blank
          (Demo.world time.Second Demo.upstream_down Demo.pdClock_ok)))
  = true
  /\ result (CheckStaleCheckpointTs ctx_live Demo.feed 1)
            (after (perform_all
                      [Call_TryUpdateGCSafePoint ctx_live 100 false;
                       Call_TryUpdateGCSafePoint ctx_live 110 false;
                       Call_TryUpdateGCSafePoint ctx_cancelled 120 true;
                       Call_IgnoreFailedChangeFeed 5])
               (after (NewManager "ticdc")
                  (mkSys Demo.blank
                     (Demo.world time.Second Demo.upstream_down
                        Demo.pdClock_ok)))) = None.
Proof.
  assert (Hno :
    no_push_succeeded
      [Call_TryUpdateGCSafePoint ctx_live 100 false;
       Call_TryUpdateGCSafePoint ctx_live 110 false;
       Call_TryUpdateGCSafePoint ctx_cancelled 120 true;
       Call_IgnoreFailedChangeFeed 5]
      (after (NewManager "ticdc")
         (mkSys Demo.blank
            (Demo.world time.Second Demo.upstream_down Demo.pdClock_ok)))
    = true) by (vm_compute; reflexivity).
  split; [exact Hno|].
  exact (new_manager_accepts_every_checkpoint "ticdc" _ ctx_live Demo.feed 1
           _ Hno).
Defined.

(** X3: after a forced push of 300 that the upstream grants, checkpoint
    301 is accepted and checkpoint 300 is refused. *)
Lemma check_after_successful_push_witness :
  reply ctx_live (Demo.holding 100 Demo.pdClock_ok) 300 = (300, None)
  /\ result (CheckStaleCheckpointTs ctx_live Demo.feed 301)
            (after (TryUpdateGCSafePoint ctx_live 300 true)
               (Demo.holding 100 Demo.pdClock_ok)) = None
  /\ result (CheckStaleCheckpointTs ctx_live Demo.feed 300)
            (after (TryUpdateGCSafePoint ctx_live 300 true)
               (Demo.holding 100 Demo.pdClock_ok)) <> None.
Proof.
  assert (Hu : forall z, 0 <= z < 1000 -> Go.is_uint64 z)
    by (unfold Go.is_uint64; intros; lia).
  split; [reflexivity|]. split.
  - apply (check_after_successful_push ctx_live ctx_live Demo.feed 300 301
             true (Demo.holding 100 Demo.pdClock_ok)
             (forced_not_rate_limited _) eq_refl).
    + apply Hu. vm_compute. split; [discriminate | reflexivity].
    + apply Hu. lia.
    + right. vm_compute. reflexivity.
  - intros Hnil.
    apply (check_after_successful_push ctx_live ctx_live Demo.feed 300 300
             true (Demo.holding 100 Demo.pdClock_ok)
             (forced_not_rate_limited _) eq_refl) in Hnil.
    + destruct Hnil as [Hz | Hlt]; [discriminate Hz|].
      vm_compute in Hlt. discriminate.
    + apply Hu. vm_compute. split; [discriminate | reflexivity].
    + apply Hu. lia.
Defined.

(** X5 on 200 ticks a second apart of a fresh manager. *)
Lemma nonforced_pushes_bounded_by_span_witness :
  (clock_monotone (env (Demo.fresh time.Second Demo.upstream_ok))
   /\ 0 < gcSafepointUpdateInterval
            (env (Demo.fresh time.Second Demo.upstream_ok))
      <= time.maxDuration
   /\ repeat 100 200 <> [])
  /\ pushes_sent (Demo.fresh time.Second Demo.upstream_ok)
       (after (owner_ticks ctx_live (repeat 100 200))
          (Demo.fresh time.Second Demo.upstream_ok))
     <= (clock (env (Demo.fresh time.Second Demo.upstream_ok))
           (reads (env (after (owner_ticks ctx_live (repeat 100 200))
                          (Demo.fresh time.Second Demo.upstream_ok))) - 1)
         - reading (Demo.fresh time.Second Demo.upstream_ok) 0)
        / gcSafepointUpdateInterval
            (env (Demo.fresh time.Second Demo.upstream_ok))
        + 1.
Proof.
  assert (Hmono : clock_monotone
                    (env (Demo.fresh time.Second Demo.upstream_ok))).
  { apply (clock_every_monotone time.Second Demo.upstream_ok Demo.pdClock_ok).
    vm_compute. discriminate. }
  assert (Hint : 0 < gcSafepointUpdateInterval
                       (env (Demo.fresh time.Second Demo.upstream_ok))
                 <= time.maxDuration).
  { vm_compute. split; [reflexivity | discriminate]. }
  assert (Hne : repeat 100 200 <> []) by (cbn; discriminate).
  split; [split; [exact Hmono | split; [exact Hint | exact Hne]]|].
  exact (nonforced_pushes_bounded_by_span ctx_live (repeat 100 200)
           (Demo.fresh time.Second Demo.upstream_ok) Hmono Hint Hne).
Defined.

(** X6: a changefeed that stopped 30 hours ago is ignored, as one that
    stopped 25 hours ago is. *)
Lemma IgnoreFailedChangeFeed_monotone_witness :
  (1 <= Demo.checkpoint_aged (30 * time.Hour)
     <= Demo.checkpoint_aged (25 * time.Hour)
   /\ Demo.checkpoint_aged (25 * time.Hour) < 2 ^ 64
   /\ result (IgnoreFailedChangeFeed (Demo.checkpoint_aged (25 * time.Hour)))
             (Demo.holding 100 Demo.pdClock_ok) = true)
  /\ result (IgnoreFailedChangeFeed (Demo.checkpoint_aged (30 * time.Hour)))
            (Demo.holding 100 Demo.pdClock_ok) = true.
Proof.
  assert (Hord : 1 <= Demo.checkpoint_aged (30 * time.Hour)
                 <= Demo.checkpoint_aged (25 * time.Hour))
    by (vm_compute; split; discriminate).
  assert (Hcp : Demo.checkpoint_aged (25 * time.Hour) < 2 ^ 64)
    by (vm_compute; reflexivity).
  assert (Hold : result (IgnoreFailedChangeFeed
                           (Demo.checkpoint_aged (25 * time.Hour)))
                        (Demo.holding 100 Demo.pdClock_ok) = true)
    by (vm_compute; reflexivity).
  split; [split; [exact Hord | split; [exact Hcp | exact Hold]]|].
  exact (IgnoreFailedChangeFeed_monotone _ _ _ Hord Hcp Hold).
Defined.

(** X7 with a PD clock that reads [T0]. *)
Lemma IgnoreFailedChangeFeed_zero_not_ignored_witness :
  fst (pdClock (env (Demo.holding 100 Demo.pdClock_ok))
         (pdReads (env (Demo.holding 100 Demo.pdClock_ok))))
  <= (2 ^ 46 - 1) * time.Millisecond + 24 * time.Hour
  /\ result (IgnoreFailedChangeFeed 0) (Demo.holding 100 Demo.pdClock_ok)
     = false.
Proof.
  assert (Hnow :
    fst (pdClock (env (Demo.holding 100 Demo.pdClock_ok))
           (pdReads (env (Demo.holding 100 Demo.pdClock_ok))))
    <= (2 ^ 46 - 1) * time.Millisecond + 24 * time.Hour)
    by (vm_compute; discriminate).
  split; [exact Hnow|].
  exact (IgnoreFailedChangeFeed_zero_not_ignored _ Hnow).
Defined.

(** X9 on a fresh manager, over a push, a check and a retention test. *)
Lemma stored_times_stay_in_past_and_never_decrease_witness :
  (clock_monotone (env (Demo.fresh time.Second Demo.upstream_ok))
   /\ times_in_past (Demo.fresh time.Second Demo.upstream_ok))
  /\ times_in_past
       (after (perform_all
                 [Call_TryUpdateGCSafePoint ctx_live 100 false;
                  Call_CheckStaleCheckpointTs ctx_live Demo.feed 90;
                  Call_IgnoreFailedChangeFeed 90])
          (Demo.fresh time.Second Demo.upstream_ok)).
Proof.
  assert (Hmono : clock_monotone
                    (env (Demo.fresh time.Second Demo.upstream_ok))).
  { apply (clock_every_monotone time.Second Demo.upstream_ok Demo.pdClock_ok).
    vm_compute. discriminate. }
  assert (Hpast : times_in_past (Demo.fresh time.Second Demo.upstream_ok)).
  { split; vm_compute; discriminate. }
  split; [split; [exact Hmono | exact Hpast]|].
  exact (proj1 (stored_times_stay_in_past_and_never_decrease _ _
                  Hmono Hpast)).
Defined.

(** X10: with the upstream down and clock readings eight hours apart, a
    manager built at [T0] with a TTL of one day reads [T0] plus a day
    after the failure of its first tick; [lastSucceededTime] is still
    [T0] afterwards, and the forced call that follows is fatal. *)
Lemma outage_keeps_one_deadline_witness :
  (upstream_always_fails (env (Demo.fresh (8 * time.Hour) Demo.upstream_down))
   /\ Go.is_int64
        (time.Second
         * gcManager.gcTTL
             (mgr (Demo.fresh (8 * time.Hour) Demo.upstream_down))))
  /\ gcManager.lastSucceededTime
       (mgr (after (perform_all [Call_TryUpdateGCSafePoint ctx_live 100 false])
               (Demo.fresh (8 * time.Hour) Demo.upstream_down)))
     = Demo.T0
  /\ result (TryUpdateGCSafePoint ctx_live 110 true)
            (after (perform_all [Call_TryUpdateGCSafePoint ctx_live 100 false])
               (Demo.fresh (8 * time.Hour) Demo.upstream_down))
     <> None.
Proof.
  assert (Hdown : upstream_always_fails
                    (env (Demo.fresh (8 * time.Hour) Demo.upstream_down)))
    by (intros k c; discriminate).
  pose proof (sample_ttl_fits (8 * time.Hour) Demo.upstream_down) as Httl.
  split; [split; [exact Hdown | exact Httl]|].
  destruct (outage_keeps_one_deadline
              [Call_TryUpdateGCSafePoint ctx_live 100 false] ctx_live 110 true
              (Demo.fresh (8 * time.Hour) Demo.upstream_down)
              Hdown Httl (forced_not_rate_limited _))
    as (Hsucc & _ & Hfatal).
  split; [exact Hsucc|].
  apply Hfatal. vm_compute. discriminate.
Defined.

(** X11: a push that succeeds, then one that is cancelled a few seconds
    later: the failure is swallowed. *)
Lemma success_restarts_grace_window_witness :
  (snd (reply ctx_live (Demo.holding 100 Demo.pdClock_ok) 300) = None
   /\ Go.is_int64
        (time.Second
         * gcManager.gcTTL (mgr (Demo.holding 100 Demo.pdClock_ok)))
   /\ snd (reply ctx_cancelled
             (after (TryUpdateGCSafePoint ctx_live 300 true)
                (Demo.holding 100 Demo.pdClock_ok)) 310)
      = Some context_Canceled)
  /\ result (TryUpdateGCSafePoint ctx_cancelled 310 true)
            (after (TryUpdateGCSafePoint ctx_live 300 true)
               (Demo.holding 100 Demo.pdClock_ok)) = None.
Proof.
  assert (Httl : Go.is_int64
                   (time.Second
                    * gcManager.gcTTL (mgr (Demo.holding 100 Demo.pdClock_ok))))
    by (unfold Go.is_int64; vm_compute; split; discriminate).
  split; [split; [reflexivity | split; [exact Httl | reflexivity]]|].
  apply (success_restarts_grace_window ctx_live ctx_cancelled 300 310
           true true (Demo.holding 100 Demo.pdClock_ok) context_Canceled
           (forced_not_rate_limited _) eq_refl Httl
           (forced_not_rate_limited _) eq_refl).
  vm_compute. reflexivity.
Defined.

(** ** Edges of the grace window and of the rate limit *)

Lemma Sub_nonneg (t u : time.Time) : u <= t -> 0 <= time.Sub t u.
Proof.
  intros Hle. unfold time.Sub, time.minDuration, time.maxDuration,
    Go.int64_min, Go.int64_max. cbv zeta.
  destruct (Z.ltb_spec (t - u) (- 2 ^ 63)); [lia|].
  destruct (Z.ltb_spec (2 ^ 63 - 1) (t - u)); lia.
Qed.

(** X13.  A TTL of zero seconds, or a negative one down to -9223372036
    seconds, leaves no grace: when the clock has not gone back behind
    [lastSucceededTime], every failed push is fatal at once.  The manager
    itself does not reject such a TTL. *)
Theorem nonpositive_ttl_leaves_no_grace
    (ctx : Context) (cp : Z) (force : bool) (s : Sys) (err : error) :
  -9223372036 <= gcManager.gcTTL (mgr s) <= 0 ->
  gcManager.lastSucceededTime (mgr s) <= reading s 2 ->
  rate_limited s force = false ->
  snd (reply ctx s cp) = Some err ->
  result (TryUpdateGCSafePoint ctx cp force) s
  = Some (ErrUpdateServiceSafepointFailed_Wrap err).
Proof.
  intros Hneg Hpast Hrl Herr. unfold result.
  rewrite (TryUpdate_push_failed ctx cp force s err Hrl Herr). cbn [fst].
  assert (Httl : Go.is_int64 (time.Second * gcManager.gcTTL (mgr s))).
  { unfold Go.is_int64. change time.Second with 1000000000. lia. }
  assert (Hg : grace_exceeded s = true).
  { apply (grace_exceeded_iff s Httl).
    change time.Second with 1000000000. lia. }
  now rewrite Hg.
Qed.

(** X14.  A TTL from 9223372037 to 18446744073 seconds, some 292 to 584
    years, does not fit a [Duration]: its nanosecond count wraps to a
    negative one, and as with a negative TTL every failed push is fatal at
    once. *)
Theorem overflowing_ttl_leaves_no_grace
    (ctx : Context) (cp : Z) (force : bool) (s : Sys) (err : error) :
  9223372037 <= gcManager.gcTTL (mgr s) <= 18446744073 ->
  gcManager.lastSucceededTime (mgr s) <= reading s 2 ->
  rate_limited s force = false ->
  snd (reply ctx s cp) = Some err ->
  ttl_duration s < 0
  /\ result (TryUpdateGCSafePoint ctx cp force) s
     = Some (ErrUpdateServiceSafepointFailed_Wrap err).
Proof.
  intros Hbig Hpast Hrl Herr.
  assert (Hwrap : ttl_duration s < 0).
  { unfold ttl_duration, Go.int64_mul, Go.int64_wrap.
    change time.Second with 1000000000.
    set (ttl := gcManager.gcTTL (mgr s)) in *.
    assert (Hmod : (1000000000 * ttl + 2 ^ 63) mod 2 ^ 64
                   = 1000000000 * ttl + 2 ^ 63 - 2 ^ 64).
    { symmetry. apply (Z.mod_unique _ _ 1); lia. }
    rewrite Hmod. lia. }
  split; [exact Hwrap|]. unfold result.
  rewrite (TryUpdate_push_failed ctx cp force s err Hrl Herr). cbn [fst].
  assert (Hg : grace_exceeded s = true).
  { unfold grace_exceeded. fold (ttl_duration s).
    pose proof (Sub_nonneg (reading s 2)
                  (gcManager.lastSucceededTime (mgr s)) Hpast).
    rewrite Z.geb_leb. apply Z.leb_le. lia. }
  now rewrite Hg.
Qed.

(** X15.  Every attempt opens the window, not only a successful or a
    non-forced one: after a call that sent a push, forced or not, granted
    or failed, a non-forced call that reads the clock less than the
    interval after the attempt is skipped.  A failed push is therefore not
    retried by the owner's ticks before the interval has gone by. *)
Theorem any_attempt_opens_the_window
    (ctx ctx' : Context) (cp cp' : Z) (force : bool) (s : Sys) :
  rate_limited s force = false ->
  time.Sub (reading s 3) (reading s 1) < gcSafepointUpdateInterval (env s) ->
  result (TryUpdateGCSafePoint ctx' cp' false)
         (after (TryUpdateGCSafePoint ctx cp force) s) = None
  /\ mgr (after (TryUpdateGCSafePoint ctx' cp' false)
            (after (TryUpdateGCSafePoint ctx cp force) s))
     = mgr (after (TryUpdateGCSafePoint ctx cp force) s)
  /\ pushes (env (after (TryUpdateGCSafePoint ctx' cp' false)
                    (after (TryUpdateGCSafePoint ctx cp force) s)))
     = pushes (env s) ++ [request s cp].
Proof.
  intros Hrl Hsoon.
  destruct (TryUpdate_attempt_frame ctx cp force s Hrl)
    as (Hupd & Hreads & Hpushes & Hclock & Hint).
  set (s1 := after (TryUpdateGCSafePoint ctx cp force) s) in *.
  assert (Hskip : rate_limited s1 false = true).
  { apply rate_limited_iff. unfold reading in *.
    rewrite Hupd, Hreads, Hclock, Hint. exact Hsoon. }
  unfold result, after.
  rewrite (TryUpdate_skip ctx' cp' false s1 Hskip). cbn [fst snd].
  split; [reflexivity|]. split; [reflexivity | exact Hpushes].
Qed.

(** X13 on a manager configured with a TTL of zero. *)
Lemma nonpositive_ttl_leaves_no_grace_witness :
  (-9223372036
   <= gcManager.gcTTL (mgr (mkSys (gcManager.set_gcTTL 0
                                     (mgr (Demo.holding 100 Demo.pdClock_ok)))
                                  (env (Demo.holding 100 Demo.pdClock_ok))))
   <= 0
   /\ gcManager.lastSucceededTime (mgr (Demo.holding 100 Demo.pdClock_ok))
      <= reading (Demo.holding 100 Demo.pdClock_ok) 2)
  /\ result (TryUpdateGCSafePoint ctx_cancelled 300 true)
            (mkSys (gcManager.set_gcTTL 0
                      (mgr (Demo.holding 100 Demo.pdClock_ok)))
                   (env (Demo.holding 100 Demo.pdClock_ok)))
     = Some (ErrUpdateServiceSafepointFailed_Wrap context_Canceled).
Proof.
  assert (Hpast :
    gcManager.lastSucceededTime (mgr (Demo.holding 100 Demo.pdClock_ok))
    <= reading (Demo.holding 100 Demo.pdClock_ok) 2)
    by (vm_compute; discriminate).
  split; [split; [cbn; lia | exact Hpast]|].
  apply (nonpositive_ttl_leaves_no_grace ctx_cancelled 300 true
           (mkSys (gcManager.set_gcTTL 0
                     (mgr (Demo.holding 100 Demo.pdClock_ok)))
                  (env (Demo.holding 100 Demo.pdClock_ok)))
           context_Canceled).
  - cbn. lia.
  - exact Hpast.
  - apply forced_not_rate_limited.
  - reflexivity.
Defined.

(** X14 on a manager configured with a TTL of 9223372037 seconds. *)
Lemma overflowing_ttl_leaves_no_grace_witness :
  9223372037
  <= gcManager.gcTTL
       (mgr (mkSys (gcManager.set_gcTTL 9223372037
                      (mgr (Demo.holding 100 Demo.pdClock_ok)))
                   (env (Demo.holding 100 Demo.pdClock_ok))))
  <= 18446744073
  /\ result (TryUpdateGCSafePoint ctx_cancelled 300 true)
            (mkSys (gcManager.set_gcTTL 9223372037
                      (mgr (Demo.holding 100 Demo.pdClock_ok)))
                   (env (Demo.holding 100 Demo.pdClock_ok)))
     = Some (ErrUpdateServiceSafepointFailed_Wrap context_Canceled).
Proof.
  assert (Hbig :
    9223372037
    <= gcManager.gcTTL
         (mgr (mkSys (gcManager.set_gcTTL 9223372037
                        (mgr (Demo.holding 100 Demo.pdClock_ok)))
                     (env (Demo.holding 100 Demo.pdClock_ok))))
    <= 18446744073) by (cbn; lia).
  split; [exact Hbig|].
  apply (overflowing_ttl_leaves_no_grace ctx_cancelled 300 true _
           context_Canceled Hbig).
  - vm_compute. discriminate.
  - apply forced_not_rate_limited.
  - reflexivity.
Defined.

(** X15: a forced push that fails, then a tick two seconds later. *)
Lemma any_attempt_opens_the_window_witness :
  time.Sub (reading (Demo.holding 100 Demo.pdClock_ok) 3)
           (reading (Demo.holding 100 Demo.pdClock_ok) 1)
  < gcSafepointUpdateInterval (env (Demo.holding 100 Demo.pdClock_ok))
  /\ result (TryUpdateGCSafePoint ctx_live 310 false)
            (after (TryUpdateGCSafePoint ctx_cancelled 300 true)
               (Demo.holding 100 Demo.pdClock_ok)) = None
  /\ pushes (env (after (TryUpdateGCSafePoint ctx_live 310 false)
                    (after (TryUpdateGCSafePoint ctx_cancelled 300 true)
                       (Demo.holding 100 Demo.pdClock_ok))))
     = pushes (env (Demo.holding 100 Demo.pdClock_ok))
       ++ [request (Demo.holding 100 Demo.pdClock_ok) 300].
Proof.
  assert (Hsoon :
    time.Sub (reading (Demo.holding 100 Demo.pdClock_ok) 3)
             (reading (Demo.holding 100 Demo.pdClock_ok) 1)
    < gcSafepointUpdateInterval (env (Demo.holding 100 Demo.pdClock_ok)))
    by (vm_compute; reflexivity).
  split; [exact Hsoon|].
  destruct (any_attempt_opens_the_window ctx_cancelled ctx_live 300 310 true
              (Demo.holding 100 Demo.pdClock_ok)
              (forced_not_rate_limited _) Hsoon) as (Hnil & _ & Hp).
  split; [exact Hnil | exact Hp].
Defined.
